(** * UPI transaction analysis: the aggregation and anomaly-scoring core

    A shallow embedding of [src/analysis.py].

    Conventions of the embedding
    - A pandas table is a list of rows; a row of the transaction schema is the
      record [Transaction].  A missing cell of a string column (pandas' NaN)
      is [None].
    - The numeric columns [amount], [hour], [month] and [is_fraud] are integer
      columns and are read as mathematical integers [Z].
    - A float64 result (a mean, a percentile rank, a score) is read as the
      exact rational it approximates; NaN is [None] where it can occur.
    - Exceptions are the [Raised] results of [outcome]. *)

From Stdlib Require Import ZArith QArith Qround Qminmax Lia Lqa Ascii String.
From stdpp Require Import base option list strings gmap sorting.

Open Scope Z_scope.

(** ** Exceptions *)

Inductive PyError : Type :=
  | KeyError (column : string)
  | ValueError
  | AttributeError (what : string)
  | MalformedInputError
  | EmptyDatasetError.

Inductive outcome (A : Type) : Type :=
  | Returned (a : A)
  | Raised (e : PyError).
Arguments Returned {A} a.
Arguments Raised {A} e.

Definition bind {A B} (m : outcome A) (k : A -> outcome B) : outcome B :=
  match m with
  | Returned a => k a
  | Raised e => Raised e
  end.

Notation "'let!' x ':=' m 'in' k" := (bind m (fun x => k))
  (at level 10, x name, m at level 100, k at level 200).

Definition raises {A} (m : outcome A) : Prop := exists e, m = Raised e.

(** ** Data model *)

Inductive Month : Type :=
  | January | February | March | April | May | June
  | July | August | September | October | November | December.

#[global] Instance Month_eq_dec : EqDecision Month.
Proof. solve_decision. Defined.

(** The position of a month in the ordered categories of [month_name]. *)
Definition month_code (m : Month) : Z :=
  match m with
  | January => 0 | February => 1 | March => 2 | April => 3
  | May => 4 | June => 5 | July => 6 | August => 7
  | September => 8 | October => 9 | November => 10 | December => 11
  end.

Definition month_categories : list (string * Month) :=
  [("January", January); ("February", February); ("March", March);
   ("April", April); ("May", May); ("June", June); ("July", July);
   ("August", August); ("September", September); ("October", October);
   ("November", November); ("December", December)].

(** [pd.Categorical(values, categories=[...], ordered=True)] at one cell
    that has a text: a name outside the categories becomes NaN. *)
Fixpoint categorical {A} (cats : list (string * A)) (s : string) : option A :=
  match cats with
  | [] => None
  | (name, a) :: cats' => if String.eqb s name then Some a else categorical cats' s
  end.

(** The text of a category of [month_name]. *)
Definition month_label (m : Month) : string :=
  match m with
  | January => "January" | February => "February" | March => "March"
  | April => "April" | May => "May" | June => "June" | July => "July"
  | August => "August" | September => "September" | October => "October"
  | November => "November" | December => "December"
  end.

(** A parsed timestamp, as a number on the time line. *)
Definition Timestamp : Type := Z.

(** The [datetime] column after [read_csv(parse_dates=...)]: parsed, with NaT
    for a blank cell, or left as the text it was, with NaN for a blank cell. *)
Inductive DatetimeCell : Type :=
  | Parsed (t : Timestamp)
  | Unparsed (text : string)
  | NaT
  | NaN.

Record Transaction : Type := {
  transaction_id : string;
  date : option Timestamp;
  time : string;
  datetime : DatetimeCell;
  month : Z;
  month_name : option Month;
  day_of_week : option string;
  hour : Z;
  category : option string;
  merchant : option string;
  amount : Z;
  payment_mode : option string;
  sender_bank : option string;
  receiver_bank : option string;
  state : option string;
  status : option string;
  is_fraud : Z
}.

Definition schema : list string :=
  ["transaction_id"; "date"; "time"; "datetime"; "month"; "month_name";
   "day_of_week"; "hour"; "category"; "merchant"; "amount"; "payment_mode";
   "sender_bank"; "receiver_bank"; "state"; "status"; "is_fraud"]%string.

(** ** 1. Data loading *)

(** A row of the file as [read_csv] hands it over before any date is parsed:
    the three columns [load_data] converts are still text. *)
Record RawRow : Type := {
  raw_transaction_id : string;
  raw_date : option string;
  raw_time : string;
  raw_datetime : option string;
  raw_month : Z;
  raw_month_name : option string;
  raw_day_of_week : option string;
  raw_hour : Z;
  raw_category : option string;
  raw_merchant : option string;
  raw_amount : Z;
  raw_payment_mode : option string;
  raw_sender_bank : option string;
  raw_receiver_bank : option string;
  raw_state : option string;
  raw_status : option string;
  raw_is_fraud : Z
}.

(** [raw_header] lists the columns present in the file.  A [RawRow] has a
    cell for every column of the schema; the cells of a column that is not in
    [raw_header] are not read by [load_data]. *)
Record RawTable : Type := {
  raw_header : list string;
  raw_rows : list RawRow
}.

(** The table [load_data] returns: the columns it has, and its rows. *)
Record Loaded : Type := {
  columns : list string;
  rows : list Transaction
}.

Definition has_column (c : string) (header : list string) : bool :=
  existsb (String.eqb c) header.

(** The first text of a column, blank cells skipped. *)
Fixpoint first_text (col : list (option string)) : option string :=
  match col with
  | [] => None
  | Some s :: _ => Some s
  | None :: col' => first_text col'
  end.

(** A blank cell becomes NaT; the first cell with a text that [parse] does
    not read raises. *)
Fixpoint parse_cells (parse : string -> option Timestamp)
         (col : list (option string)) : outcome (list (option Timestamp)) :=
  match col with
  | [] => Returned []
  | None :: col' => let! ts := parse_cells parse col' in Returned (None :: ts)
  | Some s :: col' =>
      match parse s with
      | None => Raised ValueError
      | Some t => let! ts := parse_cells parse col' in Returned (Some t :: ts)
      end
  end.

(** A cell of a parsed column, and of a column left as text. *)
Definition parsed_cell (t : option Timestamp) : DatetimeCell :=
  match t with
  | Some t => Parsed t
  | None => NaT
  end.

Definition text_cell (c : option string) : DatetimeCell :=
  match c with
  | Some s => Unparsed s
  | None => NaN
  end.

Section Loader.
(** The date parser of pandas is a parameter.  pandas infers the format of a
    column from its first text and reads every text of the column in that
    format: [parse_timestamp s0 s] is what it reads off [s] in a column whose
    first text is [s0]. *)
Variable parse_timestamp : string -> string -> option Timestamp.

(** The parser of a column. *)
Definition column_parser (col : list (option string))
  : string -> option Timestamp :=
  match first_text col with
  | Some s0 => parse_timestamp s0
  | None => fun _ => None
  end.

(** [pd.to_datetime(column)] *)
Definition to_datetime (col : list (option string))
  : outcome (list (option Timestamp)) :=
  parse_cells (column_parser col) col.

(** [read_csv(filepath, parse_dates=["datetime"])]: a missing column is a
    ValueError; the column is converted with [to_datetime], and when that
    raises it is kept as the text it was. *)
Definition read_csv_parse_dates (raw : RawTable) : outcome (list DatetimeCell) :=
  if has_column "datetime" (raw_header raw) then
    let cells := map raw_datetime (raw_rows raw) in
    match to_datetime cells with
    | Returned ts => Returned (map parsed_cell ts)
    | Raised _ => Returned (map text_cell cells)
    end
  else Raised ValueError.

(** [df[c]] *)
Definition getitem {A} (c : string) (header : list string) (col : list A)
  : outcome (list A) :=
  if has_column c header then Returned col else Raised (KeyError c).

Definition load_row (r : RawRow) (dt : DatetimeCell) (d : option Timestamp)
           (mn : option Month) : Transaction :=
  {| transaction_id := raw_transaction_id r;
     date := d;
     time := raw_time r;
     datetime := dt;
     month := raw_month r;
     month_name := mn;
     day_of_week := raw_day_of_week r;
     hour := raw_hour r;
     category := raw_category r;
     merchant := raw_merchant r;
     amount := raw_amount r;
     payment_mode := raw_payment_mode r;
     sender_bank := raw_sender_bank r;
     receiver_bank := raw_receiver_bank r;
     state := raw_state r;
     status := raw_status r;
     is_fraud := raw_is_fraud r |}.

Fixpoint assemble (rs : list RawRow) (dts : list DatetimeCell)
         (ds : list (option Timestamp)) (mns : list (option Month))
  : list Transaction :=
  match rs, dts, ds, mns with
  | r :: rs', dt :: dts', d :: ds', mn :: mns' =>
      load_row r dt d mn :: assemble rs' dts' ds' mns'
  | _, _, _, _ => []
  end.

Definition load_data (raw : RawTable) : outcome Loaded :=
  let! dts := read_csv_parse_dates raw in
  let! date_text := getitem "date" (raw_header raw) (map raw_date (raw_rows raw)) in
  let! dates := to_datetime date_text in
  let! names := getitem "month_name" (raw_header raw)
                        (map raw_month_name (raw_rows raw)) in
  Returned {| columns := raw_header raw;
              rows := assemble (raw_rows raw) dts dates
                               (map (fun n => n ≫= categorical month_categories)
                                    names) |}.
End Loader.

(** ** 2. Columns and their reductions *)

(** [Series.sum()] of an integer column. *)
Definition series_sum (col : list Z) : Z := foldr Z.add 0 col.

(** [Series.count()]: every cell of an integer column counts. *)
Definition series_count {A} (col : list A) : Z := Z.of_nat (length col).

(** [Series.mean()]: NaN on an empty column. *)
Definition series_mean (col : list Z) : option Q :=
  match col with
  | [] => None
  | _ => Some (inject_Z (series_sum col) / inject_Z (series_count col))%Q
  end.

(** The values of a column in ascending order. *)
Definition sort_ascending (col : list Z) : list Z := merge_sort Z.le col.

(** [Series.median()]: the middle value, or the mean of the two middle ones. *)
Definition series_median (col : list Z) : option Q :=
  let s := sort_ascending col in
  let n := length s in
  match n with
  | O => None
  | _ =>
      if Nat.odd n then Some (inject_Z (nth (n / 2)%nat s 0%Z))
      else Some ((inject_Z (nth (n / 2 - 1)%nat s 0%Z)
                  + inject_Z (nth (n / 2)%nat s 0%Z)) / 2)%Q
  end.

(** [Series.min()] and [Series.max()] of a date column; NaT cells are skipped
    and the result is NaT when nothing is left. *)
Definition series_min (col : list (option Z)) : option Z :=
  foldr (fun c acc => match c, acc with
                      | Some x, Some y => Some (Z.min x y)
                      | Some x, None => Some x
                      | None, _ => acc
                      end) None col.

Definition series_max (col : list (option Z)) : option Z :=
  foldr (fun c acc => match c, acc with
                      | Some x, Some y => Some (Z.max x y)
                      | Some x, None => Some x
                      | None, _ => acc
                      end) None col.

(** [Series.nunique()]: the distinct values, NaN left out. *)
Definition nunique (col : list (option string)) : Z :=
  Z.of_nat (length (remove_dups (omap id col))).

(** Rounding to the nearest integer, halves to the even one. *)
Definition rint (x : Q) : Z :=
  let f := Qfloor x in
  match (x - inject_Z f ?= 1 # 2)%Q with
  | Lt => f
  | Gt => f + 1
  | Eq => if Z.even f then f else f + 1
  end.

(** [round(decimals)] of numpy and of Python. *)
Definition round_to (decimals : nat) (x : Q) : Q :=
  (inject_Z (rint (x * inject_Z (10 ^ Z.of_nat decimals)))
   / inject_Z (10 ^ Z.of_nat decimals))%Q.

(** ** 3. Grouping *)

Section GroupBy.
Context {K R : Type}.
Variable compare_key : K -> K -> comparison.
Variable key_of : R -> option K.

(** The groups are kept in ascending key order; a row joins the end of the
    group of its key. *)
Fixpoint add_to_group (k : K) (r : R) (gs : list (K * list R))
  : list (K * list R) :=
  match gs with
  | [] => [(k, [r])]
  | (k', rs) :: gs' =>
      match compare_key k k' with
      | Eq => (k', rs ++ [r]) :: gs'
      | Lt => (k, [r]) :: gs
      | Gt => (k', rs) :: add_to_group k r gs'
      end
  end.

Definition add_row (gs : list (K * list R)) (r : R) : list (K * list R) :=
  match key_of r with
  | Some k => add_to_group k r gs
  | None => gs
  end.

(** [df.groupby(column)] with its defaults [sort=True] and [dropna=True]:
    a row whose key is NaN is in no group. *)
Definition groupby (df : list R) : list (K * list R) := foldl add_row [] df.
End GroupBy.

(** The rows that are in some group. *)
Definition grouped_rows {K R} (gs : list (K * list R)) : list R :=
  concat (map snd gs).

Definition compare_month (a b : Month) : comparison :=
  Z.compare (month_code a) (month_code b).

(** ** 4. Spending summaries *)

Record BasicInfo : Type := {
  total_transactions : Z;
  bi_total_spend : Z;
  avg_transaction : option Q;
  median_transaction : option Q;
  date_range : option Timestamp * option Timestamp; (* the two ends of the text *)
  unique_merchants : Z;
  unique_categories : Z;
  flagged_count : Z;
  fraud_rate_pct : option Q
}.

(** Rows of [monthly_summary] and [category_summary]. *)
Record SpendRow (K : Type) : Type := {
  sp_key : K;
  total_spend : Z;
  transaction_count : Z;
  avg_spend : option Q;
  flagged : Z
}.
Arguments sp_key {K} _.
Arguments total_spend {K} _.
Arguments transaction_count {K} _.
Arguments avg_spend {K} _.
Arguments flagged {K} _.

(** Rows of [top_merchants] and [state_summary]. *)
Record TotalRow : Type := {
  tr_key : string;
  tr_total_spend : Z;
  tr_count : Z
}.

(** Rows of [dayofweek_summary]; a day without transactions has NaN cells. *)
Record DayRow : Type := {
  dw_day_of_week : string;
  dw_total_spend : option Z;
  dw_count : option Z;
  dw_avg_spend : option Q
}.

Record HourRow : Type := {
  hr_hour : Z;
  hr_count : Z;
  hr_flagged : Z;
  hr_total_spend : Z
}.

Record ModeRow : Type := {
  pm_payment_mode : string;
  pm_count : Z;
  pm_total_spend : Z;
  pm_avg_spend : option Q
}.

Definition spend_row {K} (g : K * list Transaction) : SpendRow K :=
  {| sp_key := fst g;
     total_spend := series_sum (map amount (snd g));
     transaction_count := series_count (map amount (snd g));
     avg_spend := series_mean (map amount (snd g));
     flagged := series_sum (map is_fraud (snd g)) |}.

Definition total_row (g : string * list Transaction) : TotalRow :=
  {| tr_key := fst g;
     tr_total_spend := series_sum (map amount (snd g));
     tr_count := series_count (map amount (snd g)) |}.

(** [DataFrame.head(n)]; a negative [n] leaves out the last [-n] rows. *)
Definition head {A} (n : Z) (l : list A) : list A :=
  if 0 <=? n then take (Z.to_nat n) l
  else take (length l - Z.to_nat (- n))%nat l.

Definition day_order : list string :=
  ["Monday"; "Tuesday"; "Wednesday"; "Thursday"; "Friday"; "Saturday";
   "Sunday"]%string.

Fixpoint find_group {K A} (eqb : K -> K -> bool) (k : K) (gs : list (K * A))
  : option A :=
  match gs with
  | [] => None
  | (k', a) :: gs' => if eqb k k' then Some a else find_group eqb k gs'
  end.

(** One row of [.reindex(order)]: the group of that label, or NaN cells. *)
Definition reindex_day (gs : list (string * list Transaction)) (day : string)
  : DayRow :=
  match find_group String.eqb day gs with
  | Some rs =>
      {| dw_day_of_week := day;
         dw_total_spend := Some (series_sum (map amount rs));
         dw_count := Some (series_count (map amount rs));
         dw_avg_spend := series_mean (map amount rs) |}
  | None =>
      {| dw_day_of_week := day;
         dw_total_spend := None;
         dw_count := None;
         dw_avg_spend := None |}
  end.

Section Aggregator.
(** [sort_values(column, ascending=False)] with the default sorting kind:
    pandas promises a descending rearrangement of the rows and leaves the
    order of rows with equal values to the sorting algorithm.  The
    rearrangement is a parameter. *)
Variable sort_values_desc : forall A : Type, (A -> Z) -> list A -> list A.

(** Whether the NaN that [mean()] gives for an empty column is a scalar
    with a [round] method (a numpy float) or not (a plain float). *)
Variable nan_has_round : bool.

(** [x.round(2)] on the result of [mean()].  The mean is read as the exact
    quotient, so the rounded value is that of the exact mean; the code rounds
    the float next to it, which can end one hundredth away when the exact
    mean lies halfway between two hundredths. *)
Definition mean_round (decimals : nat) (x : option Q) : outcome (option Q) :=
  match x with
  | Some q => Returned (Some (round_to decimals q))
  | None =>
      if nan_has_round then Returned None
      else Raised (AttributeError "'float' object has no attribute 'round'")
  end.

Definition basic_info (df : list Transaction) : outcome BasicInfo :=
  let! avg := mean_round 2 (series_mean (map amount df)) in
  Returned
    {| total_transactions := series_count df;
       bi_total_spend := series_sum (map amount df);
       avg_transaction := avg;
       median_transaction := series_median (map amount df);
       date_range := (series_min (map date df), series_max (map date df));
       unique_merchants := nunique (map merchant df);
       unique_categories := nunique (map category df);
       flagged_count := series_sum (map is_fraud df);
       fraud_rate_pct :=
         option_map (fun m => round_to 2 (m * 100)%Q)
                    (series_mean (map is_fraud df)) |}.

Definition monthly_summary (df : list Transaction) : list (SpendRow Month) :=
  map spend_row (groupby compare_month month_name df).

Definition category_summary (df : list Transaction) : list (SpendRow string) :=
  sort_values_desc _ total_spend
    (map spend_row (groupby String.compare category df)).

Definition top_merchants (df : list Transaction) (n : Z) : list TotalRow :=
  head n (sort_values_desc _ tr_total_spend
            (map total_row (groupby String.compare merchant df))).

Definition dayofweek_summary (df : list Transaction) : list DayRow :=
  map (reindex_day (groupby String.compare day_of_week df)) day_order.

Definition hourly_summary (df : list Transaction) : list HourRow :=
  map (fun g => {| hr_hour := fst g;
                   hr_count := series_count (map amount (snd g));
                   hr_flagged := series_sum (map is_fraud (snd g));
                   hr_total_spend := series_sum (map amount (snd g)) |})
      (groupby Z.compare (fun r => Some (hour r)) df).

Definition payment_mode_summary (df : list Transaction) : list ModeRow :=
  map (fun g => {| pm_payment_mode := fst g;
                   pm_count := series_count (map amount (snd g));
                   pm_total_spend := series_sum (map amount (snd g));
                   pm_avg_spend := series_mean (map amount (snd g)) |})
      (groupby String.compare payment_mode df).

Definition state_summary (df : list Transaction) : list TotalRow :=
  sort_values_desc _ tr_total_spend
    (map total_row (groupby String.compare state df)).
End Aggregator.

(** The default of [top_merchants]. *)
Definition top_n_default : Z := 10.

(** ** 5. Anomaly scoring *)

(** [h in range(lo, hi)] *)
Definition in_range (lo hi h : Z) : bool := (lo <=? h) && (h <? hi).

Definition count_below (col : list Z) (x : Z) : Z :=
  Z.of_nat (length (filter (fun y => y < x) col)).

Definition count_equal (col : list Z) (x : Z) : Z :=
  Z.of_nat (length (filter (fun y => y = x) col)).

(** The rank of [x] in [col] under [rank(method="average")]: the mean of the
    positions, counted from 1, that the cells equal to [x] take in the sorted
    column, which are [count_below + 1] to [count_below + count_equal]. *)
Definition average_rank (col : list Z) (x : Z) : Q :=
  (inject_Z (2 * count_below col x + count_equal col x + 1) / 2)%Q.

(** [Series.rank(pct=True)] *)
Definition rank_pct (col : list Z) : list Q :=
  map (fun x => average_rank col x / inject_Z (series_count col))%Q col.

(** [Series.quantile(p)] with linear interpolation between the two nearest
    cells of the sorted column; NaN on an empty column. *)
Definition quantile (p : Q) (col : list Z) : option Q :=
  let s := sort_ascending col in
  match s with
  | [] => None
  | _ =>
      let n := Z.of_nat (length s) in
      let h := (inject_Z (n - 1) * p)%Q in
      let j := Qfloor h in
      let lo := nth (Z.to_nat j) s 0 in
      let hi := nth (Z.to_nat (Z.min (j + 1) (n - 1))) s 0 in
      Some (inject_Z lo + (h - inject_Z j) * (inject_Z hi - inject_Z lo))%Q
  end.

(** [a > q] against a float; nothing exceeds NaN. *)
Definition exceeds (a : Z) (q : option Q) : bool :=
  match q with
  | Some q => negb (Qle_bool (inject_Z a) q)
  | None => false
  end.

(** Cell by cell sum of two columns. *)
Definition series_add (a b : list Q) : list Q := zip_with Qplus a b.

(** [x.clip(lo, hi)] *)
Definition clip (lo hi x : Q) : Q := Qmin (Qmax x lo) hi.

Definition amount_pct (df : list Transaction) : list Q :=
  map (fun p => p * 40)%Q (rank_pct (map amount df)).

Definition odd_hour_points (h : Z) : Z := if in_range 1 5 h then 30 else 0.

Definition odd_hour (df : list Transaction) : list Q :=
  map (fun h => inject_Z (odd_hour_points h)) (map hour df).

Definition high_val (df : list Transaction) : list Q :=
  let q := quantile (95 # 100) (map amount df) in
  map (fun a => inject_Z ((if exceeds a q then 1 else 0) * 20)) (map amount df).

(** [amount_pct + odd_hour + high_val], before [clip] and [round]. *)
Definition score_sum (df : list Transaction) : list Q :=
  series_add (series_add (amount_pct df) (odd_hour df)) (high_val df).

Definition anomaly_scores (df : list Transaction) : list Q :=
  map (fun x => round_to 1 (clip 0 100 x)) (score_sum df).

(** The sum of the three components at one row, given the amount column of
    the whole table. *)
Definition row_sum (col : list Z) (r : Transaction) : Q :=
  (average_rank col (amount r) / inject_Z (series_count col) * 40
   + inject_Z (odd_hour_points (hour r))
   + inject_Z ((if exceeds (amount r) (quantile (95 # 100) col) then 1 else 0) * 20))%Q.

(** *** Tables as objects

    [compute_anomaly_score] copies its argument and assigns a column to the
    copy, so its effect is read off a store of table objects. *)

Record Frame : Type := {
  frame_rows : list Transaction;
  anomaly_score : option (list Q)
}.

Definition frame_columns (f : Frame) : list string :=
  schema ++ match anomaly_score f with
            | Some _ => ["anomaly_score"%string]
            | None => []
            end.

(** A table of the input schema: the derived column is absent until the
    scorer has run. *)
Definition input_table (f : Frame) : Prop := anomaly_score f = None.

Definition ref : Type := nat.

Definition Py (A : Type) : Type := gmap ref Frame -> option (A * gmap ref Frame).

Definition py_ret {A} (a : A) : Py A := fun h => Some (a, h).

Definition py_bind {A B} (m : Py A) (k : A -> Py B) : Py B :=
  fun h => match m h with
           | Some (a, h') => k a h'
           | None => None
           end.

Notation "'do!' x ':=' m 'in' k" := (py_bind m (fun x => k))
  (at level 10, x name, m at level 100, k at level 200).

(** [df.copy()]: a new object with the contents of [df]. *)
Definition df_copy (df : ref) : Py ref :=
  fun h => match h !! df with
           | Some f => let l := fresh (dom h) in Some (l, <[l := f]> h)
           | None => None
           end.

(** Reading the rows of the table at [df]. *)
Definition df_rows (df : ref) : Py (list Transaction) :=
  fun h => match h !! df with
           | Some f => Some (frame_rows f, h)
           | None => None
           end.

(** [df["anomaly_score"] = col]: the column is added to the object at [df],
    or replaces the one it has. *)
Definition df_set_anomaly_score (df : ref) (col : list Q) : Py unit :=
  fun h => match h !! df with
           | Some f =>
               Some (tt, <[df := {| frame_rows := frame_rows f;
                                    anomaly_score := Some col |}]> h)
           | None => None
           end.

Definition compute_anomaly_score (df : ref) : Py ref :=
  do! df' := df_copy df in
  do! table := df_rows df' in
  do! _ := df_set_anomaly_score df' (anomaly_scores table) in
  py_ret df'.

(** A call on a table held by the caller: the table the call returns. *)
Definition call_compute_anomaly_score (f : Frame) : option Frame :=
  match compute_anomaly_score 0%nat {[ 0%nat := f ]} with
  | Some (l, h) => h !! l
  | None => None
  end.

(** The score of the transaction with a given id in a scored table. *)
Definition score_by_id (f : Frame) (tid : string) : option Q :=
  match anomaly_score f with
  | Some col =>
      (list_to_map (zip (map transaction_id (frame_rows f)) col) : gmap string Q)
        !! tid
  | None => None
  end.

(** ** Concrete instances for the closed examples *)

(** A descending insertion sort that keeps rows of equal value in their
    order, one of the rearrangements [sort_values] may produce. *)
Fixpoint insert_desc {A} (f : A -> Z) (x : A) (l : list A) : list A :=
  match l with
  | [] => [x]
  | y :: l' => if f x <? f y then y :: insert_desc f x l' else x :: l
  end.

Definition insertion_sort_desc (A : Type) (f : A -> Z) (l : list A) : list A :=
  foldr (insert_desc f) [] l.

Definition sample_row (tid : string) (cat : option string) (h amt fraud : Z)
  : Transaction :=
  {| transaction_id := tid; date := Some 0; time := "10:00:00";
     datetime := Parsed 0; month := 1; month_name := Some January;
     day_of_week := Some "Monday"%string; hour := h; category := cat;
     merchant := Some "Swiggy"%string; amount := amt;
     payment_mode := Some "UPI ID"%string; sender_bank := Some "SBI"%string;
     receiver_bank := Some "HDFC"%string; state := Some "Delhi"%string;
     status := Some (if fraud =? 1 then "Flagged"%string else "Success"%string);
     is_fraud := fraud |}.

(** A date parser for the examples: it reads [YYYY-MM-DD], with or without
    [ HH:MM:SS] after it, as the number its digits spell.  The parser of
    pandas reads more formats than these. *)
Definition digit_value (c : ascii) : option Z :=
  let n := Z.of_nat (nat_of_ascii c) - 48 in
  if (0 <=? n) && (n <=? 9) then Some n else None.

Fixpoint digits_value (acc : Z) (cs : list ascii) : option Z :=
  match cs with
  | [] => Some acc
  | c :: cs' =>
      match digit_value c with
      | Some d => digits_value (acc * 10 + d) cs'
      | None => None
      end
  end.

Definition iso_cell (s : string) : option Timestamp :=
  match list_ascii_of_string s with
  | y1 :: y2 :: y3 :: y4 :: p1 :: m1 :: m2 :: p2 :: d1 :: d2 :: rest =>
      if Ascii.eqb p1 "-" && Ascii.eqb p2 "-" then
        match rest with
        | [] => digits_value 0 [y1; y2; y3; y4; m1; m2; d1; d2;
                                "0"; "0"; "0"; "0"; "0"; "0"]%char
        | [sp; h1; h2; c1; n1; n2; c2; s1; s2] =>
            if Ascii.eqb sp " " && Ascii.eqb c1 ":" && Ascii.eqb c2 ":" then
              digits_value 0 [y1; y2; y3; y4; m1; m2; d1; d2;
                              h1; h2; n1; n2; s1; s2]
            else None
        | _ => None
        end
      else None
  | _ => None
  end.

(** The format of a column is the shape of its first text: a text is read
    when it has the length of the first one. *)
Definition iso_timestamp (s0 s : string) : option Timestamp :=
  if (String.length s0 =? String.length s)%nat then iso_cell s else None.

(** The scenario table of the specification: amounts 100, 5000, 8000 at
    hours 10, 2, 14, the second one flagged. *)
Definition sample_table : list Transaction :=
  [sample_row "TXN00001" (Some "Food & Dining"%string) 10 100 0;
   sample_row "TXN00002" (Some "Travel"%string) 2 5000 1;
   sample_row "TXN00003" (Some "Shopping"%string) 14 8000 0].

(** A table with a row whose category is missing. *)
Definition sample_missing_category : list Transaction :=
  [sample_row "TXN00001" (Some "Food & Dining"%string) 10 100 0;
   sample_row "TXN00002" None 2 5000 1].

Definition sample_frame : Frame :=
  {| frame_rows := sample_table; anomaly_score := None |}.

Definition sample_raw_row (tid : string) (d : string) (dt : string)
           (mn : string) (amt : Z) : RawRow :=
  {| raw_transaction_id := tid; raw_date := Some d; raw_time := "10:00:00";
     raw_datetime := Some dt; raw_month := 1; raw_month_name := Some mn;
     raw_day_of_week := Some "Monday"%string; raw_hour := 10;
     raw_category := Some "Crypto"%string;
     raw_merchant := Some "Unknown Shop"%string; raw_amount := amt;
     raw_payment_mode := Some "UPI ID"%string;
     raw_sender_bank := Some "SBI"%string;
     raw_receiver_bank := Some "HDFC"%string;
     raw_state := Some "Delhi"%string; raw_status := Some "Success"%string;
     raw_is_fraud := 0 |}.

(** A file whose rows are not in calendar order. *)
Definition sample_raw : RawTable :=
  {| raw_header := schema;
     raw_rows :=
       [sample_raw_row "TXN00001" "2024-03-15" "2024-03-15 10:00:00" "March" 100;
        sample_raw_row "TXN00002" "2024-01-02" "2024-01-02 10:00:00" "January" 200;
        sample_raw_row "TXN00003" "2024-03-20" "2024-03-20 10:00:00" "March" 300] |}.


(** The same file without its [date] column. *)
Definition sample_raw_without_date : RawTable :=
  {| raw_header := filter (fun c => c <> "date"%string) schema;
     raw_rows := raw_rows sample_raw |}.

(** A file with a [datetime] cell that is no timestamp. *)
Definition sample_raw_bad_datetime : RawTable :=
  {| raw_header := schema;
     raw_rows :=
       [sample_raw_row "TXN00001" "2024-03-15" "half past ten" "March" 100] |}.

(** A file with a blank [datetime] cell. *)
Definition sample_raw_blank_datetime : RawTable :=
  {| raw_header := schema;
     raw_rows :=
       [sample_raw_row "TXN00001" "2024-03-15" "2024-03-15 10:00:00" "March" 100;
        {| raw_transaction_id := "TXN00002"; raw_date := Some "2024-03-16"%string;
           raw_time := "10:00:00"; raw_datetime := None; raw_month := 3;
           raw_month_name := Some "March"%string;
           raw_day_of_week := Some "Saturday"%string; raw_hour := 10;
           raw_category := Some "Travel"%string;
           raw_merchant := Some "OYO"%string; raw_amount := 200;
           raw_payment_mode := Some "UPI ID"%string;
           raw_sender_bank := Some "SBI"%string;
           raw_receiver_bank := Some "HDFC"%string;
           raw_state := Some "Delhi"%string;
           raw_status := Some "Success"%string; raw_is_fraud := 0 |}] |}.

(** A file whose [date] cells are not of one shape. *)
Definition sample_raw_mixed_dates : RawTable :=
  {| raw_header := schema;
     raw_rows :=
       [sample_raw_row "TXN00001" "2024-03-15" "2024-03-15 10:00:00" "March" 100;
        sample_raw_row "TXN00002" "2024-03-16 09:30:00" "2024-03-16 09:30:00"
                       "March" 200] |}.

(** Another descending rearrangement: among equal values the later row
    comes first. *)
Definition insertion_sort_desc_rev (A : Type) (f : A -> Z) (l : list A)
  : list A :=
  insertion_sort_desc A f (rev l).

(** Two categories with the same total. *)
Definition sample_tied : list Transaction :=
  [sample_row "TXN00001" (Some "Shopping"%string) 10 100 0;
   sample_row "TXN00002" (Some "Travel"%string) 11 100 0].

(** ** 6. Fraud analysis *)

Record FraudHourRow : Type := {
  fh_hour : Z;
  fh_fraud : Z;
  fh_total : Z
}.

Record FraudCategoryRow : Type := {
  fc_category : string;
  fc_fraud_count : Z;
  fc_total : Z;
  fc_fraud_amount : Z
}.

Record FraudMonthRow : Type := {
  fm_month_name : Month;
  fm_fraud : Z;
  fm_total : Z
}.

(** [df[df["is_fraud"] == 1]] *)
Definition flagged_rows (df : list Transaction) : list Transaction :=
  filter (fun r => is_fraud r = 1) df.

Section FraudAnalyzer.
Variable sort_values_desc : forall A : Type, (A -> Z) -> list A -> list A.

Definition fraud_summary (df : list Transaction) : list Transaction :=
  sort_values_desc _ amount (flagged_rows df).

Definition fraud_by_hour (df : list Transaction) : list FraudHourRow :=
  map (fun g => {| fh_hour := fst g;
                   fh_fraud := series_sum (map is_fraud (snd g));
                   fh_total := series_count (map is_fraud (snd g)) |})
      (groupby Z.compare (fun r => Some (hour r)) df).

(** The third aggregate sums the amounts of the rows of the group whose
    [is_fraud] cell, looked up in [df] by the row label, is 1; the rows of a
    table read from a file have distinct labels. *)
Definition fraud_by_category (df : list Transaction) : list FraudCategoryRow :=
  sort_values_desc _ fc_fraud_count
    (map (fun g => {| fc_category := fst g;
                      fc_fraud_count := series_sum (map is_fraud (snd g));
                      fc_total := series_count (map amount (snd g));
                      fc_fraud_amount :=
                        series_sum (map amount (flagged_rows (snd g))) |})
         (groupby String.compare category df)).

Definition fraud_by_month (df : list Transaction) : list FraudMonthRow :=
  map (fun g => {| fm_month_name := fst g;
                   fm_fraud := series_sum (map is_fraud (snd g));
                   fm_total := series_count (map amount (snd g)) |})
      (groupby compare_month month_name df).
End FraudAnalyzer.

(** ** 7. The generator of the data set, one row at a time

    The random draws are arguments: [x] is the normal draw of the amount,
    [u1] and [u2] the uniform draws of the second and third rule. *)

(** [int(x)]: the integer part, towards zero. *)
Definition int_of_float (x : Q) : Z :=
  if Qle_bool 0 x then Qfloor x else Qceiling x.

(** [int(max(50, x))] *)
Definition gen_amount (x : Q) : Z :=
  int_of_float (if Qle_bool x 50 then 50 else x).

(** The rule of the list comprehension that builds [is_fraud]. *)
Definition gen_is_fraud (amt hr : Z) (u1 u2 : Q) : bool :=
  ((5000 <? amt) && in_range 1 5 hr)
  || ((7000 <? amt) && negb (Qle_bool (4 # 10) u1))
  || ((4000 <? amt) && in_range 2 4 hr && negb (Qle_bool (3 # 10) u2)).

(** [np.where(is_fraud, "Flagged", "Success")] and [is_fraud.astype(int)] *)
Definition gen_status (f : bool) : string :=
  if f then "Flagged"%string else "Success"%string.

Definition gen_flag (f : bool) : Z := if f then 1 else 0.

(** * Properties *)

(** ** Rationals *)

Lemma rint_between (y : Q) (a b : Z) :
  (inject_Z a <= y)%Q -> (y <= inject_Z b)%Q -> a <= rint y <= b.
Proof.
  intros Ha Hb.
  pose proof (Qfloor_le y) as Hf. pose proof (Qlt_floor y) as Hc.
  assert (a <= Qfloor y) as Hlo.
  { rewrite <- (Qfloor_Z a). by apply Qfloor_resp_le. }
  assert (Qfloor y <= b) as Hhi.
  { rewrite <- (Qfloor_Z b). by apply Qfloor_resp_le. }
  unfold rint.
  assert ((1 # 2 <= y - inject_Z (Qfloor y))%Q -> Qfloor y + 1 <= b) as Hup.
  { intros Hhalf. assert (inject_Z (Qfloor y) < inject_Z b)%Q as Hlt by lra.
    rewrite <- Zlt_Qlt in Hlt. lia. }
  destruct (y - inject_Z (Qfloor y) ?= 1 # 2)%Q eqn:Hcmp.
  - apply Qeq_alt in Hcmp. destruct (Z.even _); [lia|].
    split; [lia|]. apply Hup. rewrite Hcmp. apply Qle_refl.
  - lia.
  - apply Qgt_alt in Hcmp. split; [lia|]. apply Hup. by apply Qlt_le_weak.
Qed.

Lemma round_to_1 (x : Q) :
  round_to 1 x = (inject_Z (rint (x * inject_Z 10)) / inject_Z 10)%Q.
Proof. reflexivity. Qed.

Lemma tenths (k : Z) : (inject_Z k / inject_Z 10 == k # 10)%Q.
Proof. unfold Qeq, Qdiv, Qmult, Qinv; simpl. lia. Qed.

Lemma round_to_1_between (x : Q) (a b : Z) :
  (inject_Z a <= x)%Q -> (x <= inject_Z b)%Q ->
  (inject_Z a <= round_to 1 x)%Q /\ (round_to 1 x <= inject_Z b)%Q.
Proof.
  intros Ha Hb. rewrite round_to_1.
  destruct (rint_between (x * inject_Z 10) (a * 10) (b * 10)) as [H1 H2].
  - rewrite inject_Z_mult. apply Qmult_le_compat_r; [done|]. by unfold Qle.
  - rewrite inject_Z_mult. apply Qmult_le_compat_r; [done|]. by unfold Qle.
  - rewrite tenths. unfold Qle; simpl. lia.
Qed.

Lemma clip_id (lo hi x : Q) : (lo <= x)%Q -> (x <= hi)%Q -> (clip lo hi x == x)%Q.
Proof.
  intros Hlo Hhi. unfold clip.
  rewrite (Q.max_l x lo) by done. by apply Q.min_l.
Qed.

(** ** Ranks *)

Lemma count_below_equal (col : list Z) (x : Z) :
  0 <= count_below col x /\
  count_below col x + count_equal col x <= Z.of_nat (length col).
Proof.
  unfold count_below, count_equal. split; [lia|].
  induction col as [|y col IH]; [done|].
  rewrite !filter_cons. cbn [length].
  repeat case_decide; cbn [length]; lia.
Qed.

Lemma count_equal_pos (col : list Z) (x : Z) : x ∈ col -> 1 <= count_equal col x.
Proof.
  unfold count_equal. intros Hx.
  assert (x ∈ filter (fun y => y = x) col) as Hin by (by apply list_elem_of_filter).
  destruct (filter _ col); [by apply elem_of_nil in Hin | cbn [length]; lia].
Qed.

Lemma rank_points_between (a n : Z) :
  0 < a -> a <= 2 * n ->
  (0 < inject_Z a / 2 / inject_Z n * 40)%Q /\
  (inject_Z a / 2 / inject_Z n * 40 <= 40)%Q.
Proof.
  intros Ha Hn.
  assert (0 < inject_Z n)%Q as Hn0.
  { change 0%Q with (inject_Z 0). rewrite <- Zlt_Qlt. lia. }
  assert (0 < inject_Z a)%Q as Ha0.
  { change 0%Q with (inject_Z 0). by rewrite <- Zlt_Qlt. }
  assert (inject_Z a <= 2 * inject_Z n)%Q as Han.
  { change 2%Q with (inject_Z 2). rewrite <- inject_Z_mult. by rewrite <- Zle_Qle. }
  assert (0 < inject_Z a / 2 / inject_Z n)%Q as Hpos.
  { apply Qlt_shift_div_l; [done|]. apply Qlt_shift_div_l; lra. }
  assert (inject_Z a / 2 / inject_Z n <= 1)%Q as Hle.
  { apply Qle_shift_div_r; [done|]. apply Qle_shift_div_r; lra. }
  split; lra.
Qed.

(** ** The score, row by row *)

Lemma zip_with_map {A B C D} (f : B -> C -> D) (g : A -> B) (h : A -> C) (l : list A) :
  zip_with f (map g l) (map h l) = map (fun x => f (g x) (h x)) l.
Proof. induction l as [|x l IH]; [done|]. cbn. by rewrite IH. Qed.

Lemma score_sum_rows (df : list Transaction) :
  score_sum df = map (row_sum (map amount df)) df.
Proof.
  unfold score_sum, series_add, amount_pct, odd_hour, high_val, rank_pct.
  rewrite !map_map, !zip_with_map. done.
Qed.

Lemma anomaly_scores_rows (df : list Transaction) :
  anomaly_scores df =
  map (fun r => round_to 1 (clip 0 100 (row_sum (map amount df) r))) df.
Proof. unfold anomaly_scores. by rewrite score_sum_rows, map_map. Qed.

Lemma odd_hour_points_cases (h : Z) :
  (1 <= h < 5 /\ odd_hour_points h = 30) \/
  (~ 1 <= h < 5 /\ odd_hour_points h = 0).
Proof.
  unfold odd_hour_points, in_range.
  destruct (1 <=? h) eqn:H1, (h <? 5) eqn:H5; cbn; lia.
Qed.

Lemma row_sum_between (df : list Transaction) (r : Transaction) :
  r ∈ df ->
  (0 < row_sum (map amount df) r)%Q /\ (row_sum (map amount df) r <= 90)%Q.
Proof.
  intros Hr. unfold row_sum, average_rank, series_count.
  set (col := map amount df).
  assert (amount r ∈ col) as Hin by (by apply list_elem_of_fmap_2).
  destruct (count_below_equal col (amount r)) as [Hb Hbe].
  pose proof (count_equal_pos col (amount r) Hin) as He.
  destruct (rank_points_between
              (2 * count_below col (amount r) + count_equal col (amount r) + 1)
              (Z.of_nat (length col))) as [Hp0 Hp40]; [lia | lia |].
  assert (0 <= inject_Z (odd_hour_points (hour r)) <= 30)%Q as [Ho0 Ho30].
  { destruct (odd_hour_points_cases (hour r)) as [[_ ->]|[_ ->]]; by compute. }
  assert (0 <= inject_Z ((if exceeds (amount r) (quantile (95 # 100) col)
                          then 1 else 0) * 20) <= 20)%Q as [Hv0 Hv20].
  { destruct (exceeds _ _); by compute. }
  split; lra.
Qed.

(** ** The anomaly score *)

(** C3: the odd-hour column holds, for every transaction, exactly 30 when its
    hour is one of 1, 2, 3, 4 (that is, 1 <= hour < 5) and exactly 0
    otherwise; hours 0 and 5 give 0. *)
Theorem odd_hour_component (df : list Transaction) :
  odd_hour df =
    map (fun r => inject_Z (if bool_decide (hour r ∈ [1; 2; 3; 4]) then 30 else 0)) df
  /\ (forall h, odd_hour_points h = 30 <-> 1 <= h < 5)
  /\ (forall h, odd_hour_points h = 0 <-> ~ 1 <= h < 5)
  /\ odd_hour_points 0 = 0
  /\ odd_hour_points 5 = 0.
Proof.
  split; [|split; [|split]].
  - unfold odd_hour. rewrite map_map. apply map_ext. intros r. f_equal.
    destruct (odd_hour_points_cases (hour r)) as [[Hh ->]|[Hh ->]].
    + rewrite bool_decide_eq_true_2; [done|].
      rewrite !elem_of_cons. lia.
    + rewrite bool_decide_eq_false_2; [done|].
      rewrite !elem_of_cons, elem_of_nil. lia.
  - intros h. destruct (odd_hour_points_cases h) as [[Hh ->]|[Hh ->]]; split; (done || lia).
  - intros h. destruct (odd_hour_points_cases h) as [[Hh ->]|[Hh ->]]; split; (done || lia).
  - done.
Qed.

(** C2: every anomaly score lies in [0, 100]; the three components are at
    most 40, 30 and 20, so their sum is at most 90 and clipping to [0, 100]
    changes nothing; the score is a whole number of tenths. *)
Theorem anomaly_score_range (df : list Transaction) :
  Forall (fun s => 0 <= s /\ s <= 100)%Q (anomaly_scores df)
  /\ Forall (fun p => 0 < p /\ p <= 40)%Q (amount_pct df)
  /\ Forall (fun o => o = 0%Q \/ o = 30%Q) (odd_hour df)
  /\ Forall (fun v => v = 0%Q \/ v = 20%Q) (high_val df)
  /\ Forall (fun x => 0 < x /\ x <= 90)%Q (score_sum df)
  /\ Forall (fun x => clip 0 100 x == x)%Q (score_sum df)
  /\ Forall (fun s => exists k : Z, s == k # 10)%Q (anomaly_scores df).
Proof.
  assert (Forall (fun x => 0 < x /\ x <= 90)%Q (score_sum df)) as Hsum.
  { rewrite score_sum_rows. apply Forall_forall. intros x Hx.
    apply list_elem_of_fmap in Hx as (r & -> & Hr). by apply row_sum_between. }
  repeat split.
  - rewrite anomaly_scores_rows. apply Forall_forall. intros s Hs.
    apply list_elem_of_fmap in Hs as (r & -> & Hr).
    destruct (row_sum_between df r Hr) as [H0 H90].
    apply (round_to_1_between _ 0 100); rewrite clip_id by lra.
    + change (inject_Z 0) with 0%Q. lra.
    + change (inject_Z 100) with 100%Q. lra.
  - unfold amount_pct, rank_pct. rewrite !map_map. apply Forall_forall.
    intros p Hp. apply list_elem_of_fmap in Hp as (r & -> & Hr).
    unfold average_rank, series_count.
    assert (amount r ∈ map amount df) as Hin by (by apply list_elem_of_fmap_2).
    destruct (count_below_equal (map amount df) (amount r)) as [Hb Hbe].
    pose proof (count_equal_pos _ _ Hin) as He.
    apply rank_points_between; lia.
  - unfold odd_hour. rewrite map_map. apply Forall_forall. intros o Ho.
    apply list_elem_of_fmap in Ho as (r & -> & Hr).
    destruct (odd_hour_points_cases (hour r)) as [[_ ->]|[_ ->]]; auto.
  - unfold high_val. rewrite map_map. apply Forall_forall. intros v Hv.
    apply list_elem_of_fmap in Hv as (r & -> & Hr).
    destruct (exceeds _ _); auto.
  - done.
  - eapply Forall_impl; [exact Hsum|]. intros x [H0 H90]. apply clip_id; lra.
  - unfold anomaly_scores. apply Forall_forall. intros s Hs.
    apply list_elem_of_fmap in Hs as (x & -> & Hx).
    eexists. rewrite round_to_1. apply tenths.
Qed.

(** ** Row order *)

Lemma count_below_perm (col col' : list Z) (x : Z) :
  col ≡ₚ col' -> count_below col x = count_below col' x.
Proof.
  intros H. unfold count_below. f_equal. apply Permutation_length.
  by apply filter_Permutation.
Qed.

Lemma count_equal_perm (col col' : list Z) (x : Z) :
  col ≡ₚ col' -> count_equal col x = count_equal col' x.
Proof.
  intros H. unfold count_equal. f_equal. apply Permutation_length.
  by apply filter_Permutation.
Qed.

Lemma sort_ascending_perm (col col' : list Z) :
  col ≡ₚ col' -> sort_ascending col = sort_ascending col'.
Proof.
  intros H. unfold sort_ascending.
  apply (Sorted_unique Z.le); try apply Sorted_merge_sort; try apply _.
  by rewrite !merge_sort_Permutation.
Qed.

Lemma quantile_perm (p : Q) (col col' : list Z) :
  col ≡ₚ col' -> quantile p col = quantile p col'.
Proof. intros H. unfold quantile. by rewrite (sort_ascending_perm col col'). Qed.

Lemma row_sum_perm (col col' : list Z) (r : Transaction) :
  col ≡ₚ col' -> row_sum col r = row_sum col' r.
Proof.
  intros H. unfold row_sum, average_rank, series_count.
  rewrite (count_below_perm col col'), (count_equal_perm col col'),
    (quantile_perm _ col col'), (Permutation_length H); done.
Qed.

Lemma anomaly_scores_perm (df df' : list Transaction) :
  df ≡ₚ df' ->
  zip (map transaction_id df) (anomaly_scores df)
  ≡ₚ zip (map transaction_id df') (anomaly_scores df').
Proof.
  intros H. rewrite !anomaly_scores_rows.
  rewrite (zip_with_map pair transaction_id _ df), (zip_with_map pair transaction_id _ df').
  assert (map amount df ≡ₚ map amount df') as Hcol by (by apply Permutation_map).
  rewrite (map_ext _ (fun r => (transaction_id r,
             round_to 1 (clip 0 100 (row_sum (map amount df') r))))).
  - by apply Permutation_map.
  - intros r. by rewrite (row_sum_perm _ _ r Hcol).
Qed.

Lemma zip_fst_scores (df : list Transaction) :
  (zip (map transaction_id df) (anomaly_scores df)).*1 = map transaction_id df.
Proof.
  apply fst_zip. unfold anomaly_scores, score_sum, series_add, amount_pct,
    odd_hour, high_val, rank_pct.
  rewrite !length_map, !length_zip_with, !length_map. lia.
Qed.

(** ** The copy *)

Lemma compute_anomaly_score_run (h : gmap ref Frame) (l : ref) (f : Frame) :
  h !! l = Some f ->
  compute_anomaly_score l h =
    Some (fresh (dom h),
          <[fresh (dom h) := {| frame_rows := frame_rows f;
                                anomaly_score := Some (anomaly_scores (frame_rows f)) |}]> h).
Proof.
  intros Hl. unfold compute_anomaly_score, py_bind, df_copy, df_rows,
    df_set_anomaly_score, py_ret.
  rewrite Hl. cbn. rewrite !lookup_insert_eq. cbn.
  by rewrite insert_insert_eq.
Qed.

Lemma call_compute_anomaly_score_eq (f : Frame) :
  call_compute_anomaly_score f =
    Some {| frame_rows := frame_rows f;
            anomaly_score := Some (anomaly_scores (frame_rows f)) |}.
Proof.
  unfold call_compute_anomaly_score.
  rewrite (compute_anomaly_score_run _ _ f) by apply lookup_singleton_eq.
  apply lookup_insert_eq.
Qed.

(** C5: permuting the rows of the input leaves the score of every
    transaction, looked up by its transaction_id, unchanged. *)
Theorem anomaly_score_permutation_invariant (f f' : Frame) :
  frame_rows f ≡ₚ frame_rows f' ->
  NoDup (map transaction_id (frame_rows f)) ->
  exists out out',
    call_compute_anomaly_score f = Some out
    /\ call_compute_anomaly_score f' = Some out'
    /\ frame_rows out ≡ₚ frame_rows out'
    /\ forall tid, score_by_id out tid = score_by_id out' tid.
Proof.
  intros Hperm Hids. do 2 eexists.
  rewrite !call_compute_anomaly_score_eq.
  split; [done|]. split; [done|]. split; [done|].
  intros tid. unfold score_by_id. cbn. f_equal.
  apply list_to_map_proper; [|by apply anomaly_scores_perm].
  by rewrite zip_fst_scores.
Qed.

Lemma compute_anomaly_score_effect (h : gmap ref Frame) (df : ref) (f : Frame) :
  h !! df = Some f ->
  exists out h',
    compute_anomaly_score df h = Some (out, h')
    /\ (forall l, is_Some (h !! l) -> h' !! l = h !! l)
    /\ out <> df
    /\ h' !! out = Some {| frame_rows := frame_rows f;
                           anomaly_score := Some (anomaly_scores (frame_rows f)) |}.
Proof.
  intros Hdf.
  assert (forall l, is_Some (h !! l) -> fresh (dom h) <> l) as Hfresh.
  { intros l Hl <-. apply (is_fresh (dom h)). by apply elem_of_dom. }
  do 2 eexists. split; [by apply compute_anomaly_score_run|].
  split; [|split].
  - intros l Hl. rewrite lookup_insert_ne; [done|]. by apply Hfresh.
  - apply Hfresh. by exists f.
  - apply lookup_insert_eq.
Qed.

(** C4: the scorer leaves the table it is given, and every other table,
    as it was; what it returns is a new table with the rows and columns of
    the input table and exactly one more column, anomaly_score. *)
Theorem compute_anomaly_score_copies (h : gmap ref Frame) (df : ref) (f : Frame) :
  h !! df = Some f ->
  input_table f ->
  exists out h',
    compute_anomaly_score df h = Some (out, h')
    /\ h' !! df = Some f
    /\ (forall l, is_Some (h !! l) -> h' !! l = h !! l)
    /\ out <> df
    /\ exists g,
         h' !! out = Some g
         /\ frame_rows g = frame_rows f
         /\ frame_columns g = frame_columns f ++ ["anomaly_score"%string]
         /\ length (frame_columns g) = S (length (frame_columns f))
         /\ anomaly_score g = Some (anomaly_scores (frame_rows f)).
Proof.
  intros Hdf Hin.
  destruct (compute_anomaly_score_effect h df f Hdf)
    as (out & h' & Hrun & Hsame & Hne & Hout).
  exists out, h'. split; [done|]. split; [|split; [done|split; [done|]]].
  - rewrite Hsame; [done | by exists f].
  - eexists. split; [exact Hout|]. cbn [frame_rows anomaly_score].
    unfold input_table in Hin. unfold frame_columns. cbn [anomaly_score].
    rewrite Hin. by rewrite app_nil_r.
Qed.

(** On a table that already has the column, the assignment replaces it. *)
Example compute_anomaly_score_again :
  forall f out,
    call_compute_anomaly_score f = Some out ->
    exists out',
      call_compute_anomaly_score out = Some out'
      /\ frame_columns out' = frame_columns out.
Proof.
  intros f out. rewrite call_compute_anomaly_score_eq. intros [= <-].
  eexists. split; [apply call_compute_anomaly_score_eq | reflexivity].
Qed.

(** ** Grouping *)

Section GroupByFacts.
Context {K R : Type}.
Variable compare_key : K -> K -> comparison.
Variable key_of : R -> option K.

Lemma add_to_group_rows (k : K) (r : R) (gs : list (K * list R)) :
  grouped_rows (add_to_group compare_key k r gs) ≡ₚ r :: grouped_rows gs.
Proof.
  unfold grouped_rows.
  induction gs as [|[k' rs] gs IH]; cbn; [done|].
  destruct (compare_key k k'); cbn.
  - rewrite <- app_assoc. cbn. by rewrite <- Permutation_middle.
  - done.
  - rewrite IH. by rewrite <- Permutation_middle.
Qed.

Lemma foldl_add_row_rows (df : list R) (gs : list (K * list R)) :
  grouped_rows (foldl (add_row compare_key key_of) gs df)
  ≡ₚ grouped_rows gs ++ filter (fun r => is_Some (key_of r)) df.
Proof.
  revert gs. induction df as [|r df IH]; intros gs; cbn [foldl].
  - by rewrite filter_nil, app_nil_r.
  - rewrite IH. unfold add_row. rewrite filter_cons.
    destruct (key_of r) as [k|] eqn:Hk.
    + rewrite decide_True by (by eexists).
      rewrite add_to_group_rows. by rewrite <- Permutation_middle.
    + rewrite decide_False; [done|]. by intros [? ?].
Qed.

Lemma groupby_rows (df : list R) :
  grouped_rows (groupby compare_key key_of df)
  ≡ₚ filter (fun r => is_Some (key_of r)) df.
Proof. unfold groupby. by rewrite foldl_add_row_rows. Qed.

Lemma foldl_add_row_dropna (df : list R) (gs : list (K * list R)) :
  foldl (add_row compare_key key_of) gs df =
  foldl (add_row compare_key key_of) gs (filter (fun r => is_Some (key_of r)) df).
Proof.
  revert gs. induction df as [|r df IH]; intros gs; [done|].
  rewrite filter_cons. cbn. unfold add_row at 2.
  destruct (key_of r) as [k|] eqn:Hk.
  - rewrite decide_True by (by eexists). cbn. unfold add_row at 3.
    rewrite Hk. apply IH.
  - rewrite decide_False by (by intros [? ?]). apply IH.
Qed.

Lemma groupby_dropna (df : list R) :
  groupby compare_key key_of df =
  groupby compare_key key_of (filter (fun r => is_Some (key_of r)) df).
Proof. apply foldl_add_row_dropna. Qed.

Lemma add_to_group_nonempty (k : K) (r : R) (gs : list (K * list R)) :
  Forall (fun g => snd g <> []) gs ->
  Forall (fun g => snd g <> []) (add_to_group compare_key k r gs).
Proof.
  induction 1 as [|[k' rs] gs Hg Hgs IH]; cbn.
  - by repeat constructor.
  - destruct (compare_key k k').
    + constructor; [cbn; by destruct rs | done].
    + constructor; [done|]. by constructor.
    + by constructor.
Qed.

Lemma foldl_add_row_nonempty (df : list R) (gs : list (K * list R)) :
  Forall (fun g => snd g <> []) gs ->
  Forall (fun g => snd g <> []) (foldl (add_row compare_key key_of) gs df).
Proof.
  revert gs. induction df as [|r df IH]; intros gs Hgs; cbn [foldl]; [done|].
  apply IH. unfold add_row. destruct (key_of r); [|done].
  by apply add_to_group_nonempty.
Qed.

Lemma groupby_nonempty (df : list R) :
  Forall (fun g => snd g <> []) (groupby compare_key key_of df).
Proof. apply foldl_add_row_nonempty. constructor. Qed.
End GroupByFacts.

Section CodedKeys.
Context {K R : Type}.
Variable code : K -> Z.
Variable key_of : R -> option K.
Hypothesis code_inj : forall a b, code a = code b -> a = b.

Local Abbreviation compare_code := (fun a b : K => Z.compare (code a) (code b)).
Local Abbreviation before := (fun a b : K => code a < code b).

Lemma add_to_group_hd (k0 k : K) (r : R) (gs : list (K * list R)) :
  code k0 < code k ->
  HdRel before k0 (map fst gs) ->
  HdRel before k0 (map fst (add_to_group compare_code k r gs)).
Proof.
  intros Hk Hhd. destruct gs as [|[k' rs] gs]; cbn.
  - by constructor.
  - destruct (Z.compare_spec (code k) (code k')); cbn.
    + done.
    + by constructor.
    + inversion_clear Hhd. by constructor.
Qed.

Lemma add_to_group_sorted (k : K) (r : R) (gs : list (K * list R)) :
  Sorted before (map fst gs) ->
  Sorted before (map fst (add_to_group compare_code k r gs)).
Proof.
  induction gs as [|[k' rs] gs IH]; cbn; intros Hs.
  - by repeat constructor.
  - apply Sorted_inv in Hs as [Hs Hhd].
    destruct (Z.compare_spec (code k) (code k')); cbn.
    + by constructor.
    + constructor; [by constructor | by constructor].
    + constructor; [by apply IH | by apply add_to_group_hd].
Qed.

Lemma foldl_add_row_sorted (df : list R) (gs : list (K * list R)) :
  Sorted before (map fst gs) ->
  Sorted before (map fst (foldl (add_row compare_code key_of) gs df)).
Proof.
  revert gs. induction df as [|r df IH]; intros gs Hs; cbn [foldl]; [done|].
  apply IH. unfold add_row. destruct (key_of r); [|done].
  by apply add_to_group_sorted.
Qed.

Lemma groupby_sorted (df : list R) :
  StronglySorted before (map fst (groupby compare_code key_of df)).
Proof.
  apply Sorted.Sorted_StronglySorted.
  - intros a b c. lia.
  - apply foldl_add_row_sorted. constructor.
Qed.

Lemma add_to_group_keys (k x : K) (r : R) (gs : list (K * list R)) :
  x ∈ map fst (add_to_group compare_code k r gs) <-> x = k \/ x ∈ map fst gs.
Proof.
  induction gs as [|[k' rs] gs IH]; cbn.
  - rewrite list_elem_of_singleton, elem_of_nil. tauto.
  - destruct (Z.compare_spec (code k) (code k')) as [Heq| |]; cbn.
    + apply code_inj in Heq as ->. rewrite elem_of_cons. tauto.
    + rewrite !elem_of_cons. tauto.
    + rewrite !elem_of_cons, IH. tauto.
Qed.

Lemma foldl_add_row_keys (x : K) (df : list R) (gs : list (K * list R)) :
  x ∈ map fst (foldl (add_row compare_code key_of) gs df)
  <-> x ∈ map fst gs \/ Some x ∈ map key_of df.
Proof.
  revert gs. induction df as [|r df IH]; intros gs; cbn [foldl map].
  - rewrite elem_of_nil. tauto.
  - rewrite IH, elem_of_cons. unfold add_row.
    destruct (key_of r) as [k|].
    + rewrite add_to_group_keys.
      assert (Some x = Some k <-> x = k) as Hk
        by (split; [by intros [= ->] | by intros ->]).
      tauto.
    + assert (Some x = None <-> False) as Hk by (split; [discriminate | tauto]).
      tauto.
Qed.

Lemma groupby_keys (x : K) (df : list R) :
  x ∈ map fst (groupby compare_code key_of df) <-> Some x ∈ map key_of df.
Proof.
  unfold groupby. rewrite foldl_add_row_keys. cbn. rewrite elem_of_nil. tauto.
Qed.

Lemma strictly_sorted_NoDup (l : list K) : StronglySorted before l -> NoDup l.
Proof.
  induction 1 as [|x l Hl IH Hx]; constructor; [|done].
  intros Hin. rewrite Forall_forall in Hx. specialize (Hx x Hin). lia.
Qed.

Lemma groupby_keys_same (df df' : list R) :
  (forall x, Some x ∈ map key_of df <-> Some x ∈ map key_of df') ->
  map fst (groupby compare_code key_of df)
  = map fst (groupby compare_code key_of df').
Proof.
  intros Hsame.
  apply (StronglySorted_unique_strong before); try apply groupby_sorted.
  - intros x1 x2 _ _ H1 H2. lia.
  - apply NoDup_Permutation;
      try (apply strictly_sorted_NoDup, groupby_sorted).
    intros x. by rewrite !groupby_keys.
Qed.

Lemma groupby_keys_perm (df df' : list R) :
  df ≡ₚ df' ->
  map fst (groupby compare_code key_of df)
  = map fst (groupby compare_code key_of df').
Proof. intros Hperm. apply groupby_keys_same. intros x. by rewrite Hperm. Qed.
End CodedKeys.

Lemma month_code_inj (a b : Month) : month_code a = month_code b -> a = b.
Proof. destruct a, b; cbn; intros H; (done || discriminate H). Qed.

(** ** Sums over groups *)

Lemma series_sum_cons (x : Z) (l : list Z) :
  series_sum (x :: l) = x + series_sum l.
Proof. reflexivity. Qed.

Lemma series_sum_app (a b : list Z) :
  series_sum (a ++ b) = series_sum a + series_sum b.
Proof.
  induction a as [|x a IH]; [done|].
  cbn [app]. rewrite !series_sum_cons, IH. lia.
Qed.

Lemma series_sum_perm (a b : list Z) : a ≡ₚ b -> series_sum a = series_sum b.
Proof. induction 1; rewrite ?series_sum_cons; lia. Qed.

Lemma grouped_sum {K} (f : Transaction -> Z) (gs : list (K * list Transaction)) :
  series_sum (map (fun g => series_sum (map f (snd g))) gs)
  = series_sum (map f (grouped_rows gs)).
Proof.
  unfold grouped_rows. induction gs as [|g gs IH]; [done|].
  cbn [map concat]. by rewrite series_sum_cons, map_app, series_sum_app, IH.
Qed.

Lemma grouped_count {K} (gs : list (K * list Transaction)) :
  series_sum (map (fun g => series_count (map amount (snd g))) gs)
  = series_count (grouped_rows gs).
Proof.
  unfold grouped_rows, series_count. induction gs as [|g gs IH]; [done|].
  cbn [map concat]. rewrite series_sum_cons, IH, length_app, length_map. lia.
Qed.

Lemma series_sum_split (P : Transaction -> Prop) `{!forall r, Decision (P r)}
      (f : Transaction -> Z) (df : list Transaction) :
  series_sum (map f df)
  = series_sum (map f (filter P df))
    + series_sum (map f (filter (fun r => ~ P r) df)).
Proof.
  induction df as [|r df IH]; [done|].
  rewrite !filter_cons. cbn [map]. rewrite series_sum_cons, IH.
  destruct (decide (P r)) as [Hp|Hp].
  - rewrite decide_False by tauto. cbn [map]. rewrite series_sum_cons. lia.
  - rewrite decide_True by done. cbn [map]. rewrite series_sum_cons. lia.
Qed.

Lemma filter_all {A} (P : A -> Prop) `{!forall x, Decision (P x)} (l : list A) :
  Forall P l -> filter P l = l.
Proof.
  induction 1 as [|x l Hx Hl IH]; [done|].
  rewrite filter_cons, decide_True by done. by rewrite IH.
Qed.

Lemma series_sum_pos (l : list Z) :
  l <> [] -> Forall (fun x => 0 < x) l -> 0 < series_sum l.
Proof.
  intros Hne Hpos. destruct Hpos as [|x l Hx Hl]; [done|].
  rewrite series_sum_cons.
  assert (0 <= series_sum l); [|lia].
  clear Hne Hx. induction Hl; rewrite ?series_sum_cons; [done | lia].
Qed.

Lemma add_to_group_key_from {K R} (cmp : K -> K -> comparison) (k x : K) (r : R)
      (gs : list (K * list R)) :
  x ∈ map fst (add_to_group cmp k r gs) -> x = k \/ x ∈ map fst gs.
Proof.
  induction gs as [|[k' rs] gs IH]; cbn.
  - rewrite list_elem_of_singleton. tauto.
  - destruct (cmp k k'); cbn; rewrite !elem_of_cons; tauto.
Qed.

Lemma groupby_key_observed {K R} (cmp : K -> K -> comparison)
      (key_of : R -> option K) (x : K) (df : list R) :
  x ∈ map fst (groupby cmp key_of df) -> Some x ∈ map key_of df.
Proof.
  unfold groupby. intros Hx.
  assert (x ∈ map fst (@nil (K * list R)) \/ Some x ∈ map key_of df) as [H|H];
    [|by apply elem_of_nil in H|done].
  revert Hx. generalize (@nil (K * list R)).
  induction df as [|r df IH]; intros gs; cbn [foldl map]; [tauto|].
  intros Hx. apply IH in Hx as [Hx|Hx]; [|right; by right].
  unfold add_row in Hx. destruct (key_of r) as [k|]; [|by left].
  apply add_to_group_key_from in Hx as [->|Hx]; [right; by left | by left].
Qed.

(** ** Category totals *)

Section CategoryTotals.
Variable sort_values_desc : forall A : Type, (A -> Z) -> list A -> list A.
Hypothesis sort_values_desc_perm :
  forall (A : Type) (f : A -> Z) (l : list A), sort_values_desc A f l ≡ₚ l.

Local Abbreviation has_category := (fun r : Transaction => is_Some (category r)).

Lemma category_summary_perm (df : list Transaction) :
  category_summary sort_values_desc df
  ≡ₚ map spend_row (groupby String.compare category df).
Proof. apply sort_values_desc_perm. Qed.

Lemma category_summary_sum (f : Transaction -> Z) (df : list Transaction) :
  series_sum (map (fun g => series_sum (map f (snd g)))
                  (groupby String.compare category df))
  = series_sum (map f (filter has_category df)).
Proof.
  rewrite grouped_sum. apply series_sum_perm, Permutation_map, groupby_rows.
Qed.

Lemma category_summary_total_spend (df : list Transaction) :
  series_sum (map total_spend (category_summary sort_values_desc df))
  = series_sum (map amount (filter has_category df)).
Proof.
  rewrite (series_sum_perm _ _ (Permutation_map _ (category_summary_perm df))).
  rewrite map_map. apply (category_summary_sum amount).
Qed.

(** C6, as the code has it: when every row has a category, the total_spend
    column of category_summary adds up to the amount column of the table. *)
Theorem category_totals_conserved (df : list Transaction) :
  Forall (fun r => is_Some (category r)) df ->
  series_sum (map total_spend (category_summary sort_values_desc df))
  = series_sum (map amount df).
Proof.
  intros Hall. rewrite category_summary_total_spend. by rewrite filter_all.
Qed.

(** C10: rows without a category are left out of category_summary: the
    summary is the one of the table without them, no row of it stands for a
    missing category, and its totals add up to those of the rows that have
    a category; so, amounts being positive, the totals are conserved only
    when every row has a category. *)
Theorem category_summary_drops_missing (df : list Transaction) :
  category_summary sort_values_desc df
  = category_summary sort_values_desc (filter has_category df)
  /\ Forall (fun row => Some (sp_key row) ∈ map category df
                        /\ 1 <= transaction_count row)
            (category_summary sort_values_desc df)
  /\ series_sum (map total_spend (category_summary sort_values_desc df))
     = series_sum (map amount (filter has_category df))
  /\ series_sum (map transaction_count (category_summary sort_values_desc df))
     = series_count (filter has_category df)
  /\ series_sum (map flagged (category_summary sort_values_desc df))
     = series_sum (map is_fraud (filter has_category df))
  /\ (Forall (fun r => 0 < amount r) df ->
      series_sum (map total_spend (category_summary sort_values_desc df))
      = series_sum (map amount df)
      <-> Forall has_category df).
Proof.
  split; [|split; [|split; [|split; [|split]]]].
  - unfold category_summary. by rewrite groupby_dropna.
  - rewrite category_summary_perm. apply Forall_forall. intros row Hrow.
    apply list_elem_of_fmap in Hrow as (g & -> & Hg). cbn. split.
    + apply (groupby_key_observed String.compare).
      by apply list_elem_of_fmap_2.
    + pose proof (groupby_nonempty String.compare category df) as Hne.
      rewrite Forall_forall in Hne. specialize (Hne g Hg).
      unfold series_count. destruct (snd g); [done|]. cbn [map length]. lia.
  - apply category_summary_total_spend.
  - rewrite (series_sum_perm _ _ (Permutation_map _ (category_summary_perm df))).
    rewrite map_map. cbn. rewrite grouped_count. unfold series_count.
    f_equal. apply Permutation_length, groupby_rows.
  - rewrite (series_sum_perm _ _ (Permutation_map _ (category_summary_perm df))).
    rewrite map_map. apply (category_summary_sum is_fraud).
  - intros Hpos. rewrite category_summary_total_spend.
    rewrite (series_sum_split has_category amount df). split.
    + intros Heq. apply Forall_forall. intros r Hr.
      destruct (decide (has_category r)) as [|Hmiss]; [done|]. exfalso.
      assert (0 < series_sum (map amount (filter (fun r => ~ has_category r) df)));
        [|lia].
      apply series_sum_pos.
      * intros Hnil.
        assert (r ∈ filter (fun r => ~ has_category r) df) as Hin
          by (by apply list_elem_of_filter).
        destruct (filter (fun r => ~ has_category r) df);
          [by apply elem_of_nil in Hin | discriminate Hnil].
      * apply Forall_fmap, Forall_forall. intros x Hx.
        apply list_elem_of_filter in Hx as [_ Hx].
        rewrite Forall_forall in Hpos. by apply Hpos.
    + intros Hall.
      assert (filter (fun r => ~ has_category r) df = []) as ->; [|cbn; lia].
      clear Hpos. induction Hall as [|x l Hx Hl IH]; [done|].
      rewrite filter_cons, decide_False by tauto. done.
Qed.
End CategoryTotals.

(** ** The loader *)

Local Ltac run_bind := cbv beta iota zeta delta [bind].

Lemma parse_cells_raises (parse : string -> option Timestamp)
      (col : list (option string)) :
  raises (parse_cells parse col) <-> exists s, Some s ∈ col /\ parse s = None.
Proof.
  induction col as [|[s|] col IH]; cbn [parse_cells].
  - split; [by intros [e He] | intros (s & Hs & _); by apply elem_of_nil in Hs].
  - destruct (parse s) as [t|] eqn:Hs.
    + destruct (parse_cells parse col) as [ts|e]; run_bind.
      * split; [by intros [e He]|]. intros (s' & Hin & Hs').
        apply elem_of_cons in Hin as [[= ->]|Hin]; [congruence|].
        destruct IH as [_ IH]. destruct IH as [e He]; [by exists s'|done].
      * split; [|by exists e]. intros _.
        destruct IH as [IH _]. destruct IH as (s' & Hin & Hs'); [by exists e|].
        exists s'. split; [by right|done].
    + split; [|by eexists]. intros _. exists s. split; [by left|done].
  - destruct (parse_cells parse col) as [ts|e]; run_bind.
    + split; [by intros [e He]|]. intros (s' & Hin & Hs').
      apply elem_of_cons in Hin as [[=]|Hin].
      destruct IH as [_ IH]. destruct IH as [e He]; [by exists s'|done].
    + split; [|by exists e]. intros _.
      destruct IH as [IH _]. destruct IH as (s' & Hin & Hs'); [by exists e|].
      exists s'. split; [by right|done].
Qed.


Lemma parse_cells_Returned (parse : string -> option Timestamp)
      (col : list (option string)) (ts : list (option Timestamp)) :
  parse_cells parse col = Returned ts ->
  ts = map (fun c => c ≫= parse) col
  /\ Forall (fun c => forall s, c = Some s -> is_Some (parse s)) col.
Proof.
  revert ts. induction col as [|[s|] col IH]; intros ts; cbn [parse_cells].
  - intros [= <-]. by split.
  - destruct (parse s) as [t|] eqn:Hs; [|discriminate].
    destruct (parse_cells parse col) as [ts'|]; run_bind; [|discriminate].
    intros [= <-]. destruct (IH ts' eq_refl) as [-> Hall]. split.
    + cbn. by rewrite Hs.
    + constructor; [|done]. intros s' [= <-]. rewrite Hs. by eexists.
  - destruct (parse_cells parse col) as [ts'|]; run_bind; [|discriminate].
    intros [= <-]. destruct (IH ts' eq_refl) as [-> Hall]. split; [done|].
    constructor; [|done]. intros s' [=].
Qed.

Lemma parse_cells_length (parse : string -> option Timestamp)
      (col : list (option string)) (ts : list (option Timestamp)) :
  parse_cells parse col = Returned ts -> length ts = length col.
Proof.
  intros H. apply parse_cells_Returned in H as [-> _]. by rewrite length_map.
Qed.


Section LoaderFacts.
Variable parse_timestamp : string -> string -> option Timestamp.



Lemma to_datetime_length (col : list (option string))
      (ts : list (option Timestamp)) :
  to_datetime parse_timestamp col = Returned ts -> length ts = length col.
Proof. apply parse_cells_length. Qed.

Lemma read_csv_parse_dates_length (raw : RawTable) (dts : list DatetimeCell) :
  read_csv_parse_dates parse_timestamp raw = Returned dts ->
  length dts = length (raw_rows raw).
Proof.
  unfold read_csv_parse_dates.
  destruct (has_column "datetime" (raw_header raw)); [|discriminate]. run_bind.
  destruct (to_datetime parse_timestamp (map raw_datetime (raw_rows raw)))
    as [ts|e] eqn:Hm; intros [= <-].
  - apply to_datetime_length in Hm. by rewrite length_map, Hm, length_map.
  - by rewrite !length_map.
Qed.

Lemma assemble_month_name (rs : list RawRow) (dts : list DatetimeCell)
      (ds : list (option Timestamp)) (mns : list (option Month)) :
  length dts = length rs -> length ds = length rs -> length mns = length rs ->
  map month_name (assemble rs dts ds mns) = mns.
Proof.
  revert dts ds mns.
  induction rs as [|r rs IH]; intros [|dt dts] [|d ds] [|mn mns];
    cbn; try discriminate; [done|].
  intros [= H1] [= H2] [= H3]. f_equal. by apply IH.
Qed.

Lemma load_data_month_name (raw : RawTable) (df : Loaded) :
  load_data parse_timestamp raw = Returned df ->
  map month_name (rows df)
  = map (fun r => raw_month_name r ≫= categorical month_categories)
        (raw_rows raw).
Proof.
  unfold load_data.
  destruct (read_csv_parse_dates parse_timestamp raw) as [dts|] eqn:Hdts;
    [|discriminate]. run_bind.
  unfold getitem.
  destruct (has_column "date" (raw_header raw)); [|discriminate]. run_bind.
  destruct (to_datetime parse_timestamp (map raw_date (raw_rows raw)))
    as [ds|] eqn:Hds; [|discriminate]. run_bind.
  destruct (has_column "month_name" (raw_header raw)); [|discriminate]. run_bind.
  intros [= <-]. cbn [rows]. rewrite assemble_month_name.
  - by rewrite map_map.
  - by apply read_csv_parse_dates_length.
  - apply to_datetime_length in Hds. by rewrite length_map in Hds.
  - by rewrite !length_map.
Qed.

End LoaderFacts.

(** ** Calendar order *)

Lemma categorical_elem {A} (cats : list (string * A)) (s : string) (a : A) :
  categorical cats s = Some a -> (s, a) ∈ cats.
Proof.
  induction cats as [|[name b] cats IH]; cbn; [done|].
  destruct (String.eqb_spec s name) as [->|Hne].
  - intros [= ->]. by left.
  - intros H. right. by apply IH.
Qed.

Lemma categorical_month_label (s : string) (m : Month) :
  categorical month_categories s = Some m <-> s = month_label m.
Proof.
  split.
  - intros H. apply categorical_elem in H. unfold month_categories in H.
    repeat (apply elem_of_cons in H as [[= -> ->]|H]; [reflexivity|]).
    by apply elem_of_nil in H.
  - intros ->. by destruct m.
Qed.

Lemma StronglySorted_filter {A} (R : relation A) (P : A -> Prop)
      `{!forall x, Decision (P x)} (l : list A) :
  StronglySorted R l -> StronglySorted R (filter P l).
Proof.
  induction 1 as [|x l Hl IH Hx]; [constructor|].
  rewrite filter_cons. destruct (decide (P x)); [|done].
  constructor; [done|]. apply Forall_forall. intros y Hy.
  apply list_elem_of_filter in Hy as [_ Hy].
  rewrite Forall_forall in Hx. by apply Hx.
Qed.

Lemma map_filter_transport {A B} (f : A -> B) (P : A -> Prop) (Q : B -> Prop)
      `{!forall x, Decision (P x)} `{!forall y, Decision (Q y)} (l : list A) :
  (forall x, P x <-> Q (f x)) -> map f (filter P l) = filter Q (map f l).
Proof.
  intros HPQ. induction l as [|x l IH]; [done|].
  cbn [map]. rewrite !filter_cons.
  destruct (decide (P x)) as [HP|HP], (decide (Q (f x))) as [HQ|HQ].
  - cbn [map]. by rewrite IH.
  - by apply HPQ in HP.
  - by apply HPQ in HQ.
  - done.
Qed.

(** The keys of a grouping by month are the months that occur, January
    first. *)
Lemma month_keys_calendar {R} (key_of : R -> option Month) (df : list R) :
  map fst (groupby compare_month key_of df)
  = filter (fun m => Some m ∈ map key_of df)
           [January; February; March; April; May; June;
            July; August; September; October; November; December].
Proof.
  assert (StronglySorted (fun a b => month_code a < month_code b)
            [January; February; March; April; May; June;
             July; August; September; October; November; December]) as Hcal.
  { apply (bool_decide_unpack _). vm_compute. exact I. }
  apply (StronglySorted_unique_strong (fun a b => month_code a < month_code b)).
  - intros x1 x2 _ _ H1 H2. lia.
  - apply (groupby_sorted month_code key_of).
  - by apply StronglySorted_filter.
  - apply NoDup_Permutation.
    + apply (strictly_sorted_NoDup month_code), (groupby_sorted month_code key_of).
    + apply (strictly_sorted_NoDup month_code). by apply StronglySorted_filter.
    + intros x. rewrite (groupby_keys month_code key_of month_code_inj).
      rewrite list_elem_of_filter. split; [|tauto]. intros Hx. split; [done|].
      destruct x; rewrite !elem_of_cons; repeat ((left; reflexivity) || right).
Qed.

(** C7: for a file that has the columns of the aggregation, the rows of
    monthly_summary of the loaded table are the month names of the file that
    are categories, January first and December last, each once, whatever the
    order of the rows of the table or of the file. *)
Theorem monthly_summary_calendar_order
        (parse_timestamp : string -> string -> option Timestamp)
        (raw : RawTable) (df : Loaded) :
  load_data parse_timestamp raw = Returned df ->
  has_column "amount" (raw_header raw) = true ->
  has_column "is_fraud" (raw_header raw) = true ->
  map (fun row => month_label (sp_key row)) (monthly_summary (rows df))
  = filter (fun name => Some name ∈ map raw_month_name (raw_rows raw))
           ["January"; "February"; "March"; "April"; "May"; "June";
            "July"; "August"; "September"; "October"; "November";
            "December"]%string
  /\ map sp_key (monthly_summary (rows df))
     = filter (fun m => Some m ∈ map month_name (rows df))
              [January; February; March; April; May; June;
               July; August; September; October; November; December]
  /\ (forall df', df' ≡ₚ rows df ->
        map sp_key (monthly_summary df') = map sp_key (monthly_summary (rows df)))
  /\ (forall raw' df',
        raw_rows raw' ≡ₚ raw_rows raw ->
        load_data parse_timestamp raw' = Returned df' ->
        map sp_key (monthly_summary (rows df'))
        = map sp_key (monthly_summary (rows df))).
Proof.
  intros Hload _ _.
  assert (forall t, map sp_key (monthly_summary t)
                    = map fst (groupby compare_month month_name t)) as Hkeys.
  { intros t. unfold monthly_summary. by rewrite map_map. }
  split; [|split; [|split]].
  - rewrite <- (map_map sp_key month_label), Hkeys, month_keys_calendar.
    change ["January"; "February"; "March"; "April"; "May"; "June";
            "July"; "August"; "September"; "October"; "November";
            "December"]%string
      with (map month_label
              [January; February; March; April; May; June;
               July; August; September; October; November; December]).
    apply map_filter_transport. intros m.
    rewrite (load_data_month_name _ _ _ Hload), !list_elem_of_fmap. split.
    + intros (r & Hm & Hr). exists r. split; [|done].
      destruct (raw_month_name r) as [s|]; [|discriminate]. cbn in Hm.
      symmetry in Hm. apply categorical_month_label in Hm. by rewrite Hm.
    + intros (r & Hm & Hr). exists r. split; [|done]. rewrite <- Hm. cbn.
      symmetry. by apply categorical_month_label.
  - rewrite Hkeys. apply month_keys_calendar.
  - intros df' Hperm. rewrite !Hkeys.
    by apply (groupby_keys_perm month_code month_name month_code_inj).
  - intros raw' df' Hperm Hload'. rewrite !Hkeys.
    apply (groupby_keys_same month_code month_name month_code_inj).
    intros x. rewrite (load_data_month_name _ _ _ Hload),
      (load_data_month_name _ _ _ Hload').
    by rewrite Hperm.
Qed.

(** ** The empty table *)

Section EmptyTable.
Variable sort_values_desc : forall A : Type, (A -> Z) -> list A -> list A.
Hypothesis sort_values_desc_perm :
  forall (A : Type) (f : A -> Z) (l : list A), sort_values_desc A f l ≡ₚ l.

Lemma sort_values_desc_nil (A : Type) (f : A -> Z) : sort_values_desc A f [] = [].
Proof. apply Permutation_nil. symmetry. apply sort_values_desc_perm. Qed.

(** C1, as the code has it: on the empty table the group-by summaries have
    no rows, dayofweek_summary has its seven rows, each with NaN cells, and
    basic_info has no check for emptiness: it raises no EmptyDatasetError,
    and either returns NaN for mean and median or fails on calling round
    on the NaN of the mean. *)
Theorem empty_table_summaries (nan_has_round : bool) :
  monthly_summary [] = []
  /\ category_summary sort_values_desc [] = []
  /\ (forall n, top_merchants sort_values_desc [] n = [])
  /\ hourly_summary [] = []
  /\ payment_mode_summary [] = []
  /\ state_summary sort_values_desc [] = []
  /\ dayofweek_summary [] =
       map (fun d => {| dw_day_of_week := d; dw_total_spend := None;
                        dw_count := None; dw_avg_spend := None |}) day_order
  /\ length (dayofweek_summary []) = 7%nat
  /\ basic_info nan_has_round [] <> Raised EmptyDatasetError
  /\ basic_info true [] =
       Returned {| total_transactions := 0; bi_total_spend := 0;
                   avg_transaction := None; median_transaction := None;
                   date_range := (None, None); unique_merchants := 0;
                   unique_categories := 0; flagged_count := 0;
                   fraud_rate_pct := None |}
  /\ basic_info false [] =
       Raised (AttributeError "'float' object has no attribute 'round'").
Proof.
  repeat split; try reflexivity.
  - apply sort_values_desc_nil.
  - intros n. unfold top_merchants. cbn. rewrite sort_values_desc_nil.
    unfold head. destruct (0 <=? n); apply take_nil.
  - apply sort_values_desc_nil.
  - intros H. destruct nan_has_round; discriminate H.
Qed.
End EmptyTable.

(** C1 fails on the code: on the empty table dayofweek_summary has seven
    rows, and basic_info does not raise EmptyDatasetError. *)
Lemma empty_table_claim_fails :
  ~ (exists sort_values_desc : forall A : Type, (A -> Z) -> list A -> list A,
       length (monthly_summary []) = 0%nat
       /\ length (category_summary sort_values_desc []) = 0%nat
       /\ length (top_merchants sort_values_desc [] top_n_default) = 0%nat
       /\ length (dayofweek_summary []) = 0%nat
       /\ length (hourly_summary []) = 0%nat
       /\ length (payment_mode_summary []) = 0%nat
       /\ length (state_summary sort_values_desc []) = 0%nat)
  /\ ~ (exists nan_has_round : bool,
          basic_info nan_has_round [] = Raised EmptyDatasetError).
Proof.
  split.
  - intros (s & _ & _ & _ & H & _). discriminate H.
  - intros [[|] H]; discriminate H.
Qed.

(** ** The insertion sort is a descending rearrangement *)

Lemma insert_desc_perm {A} (f : A -> Z) (x : A) (l : list A) :
  insert_desc f x l ≡ₚ x :: l.
Proof.
  induction l as [|y l IH]; cbn; [done|].
  destruct (f x <? f y); [|done]. rewrite IH. apply perm_swap.
Qed.

Lemma insertion_sort_desc_perm (A : Type) (f : A -> Z) (l : list A) :
  insertion_sort_desc A f l ≡ₚ l.
Proof.
  unfold insertion_sort_desc. induction l as [|x l IH]; cbn; [done|].
  by rewrite insert_desc_perm, IH.
Qed.

Lemma insert_desc_sorted {A} (f : A -> Z) (x : A) (l : list A) :
  Sorted (fun a b => f b <= f a) l ->
  Sorted (fun a b => f b <= f a) (insert_desc f x l).
Proof.
  induction l as [|y l IH]; cbn; intros Hs.
  - by repeat constructor.
  - destruct (Z.ltb_spec (f x) (f y)).
    + apply Sorted_inv in Hs as [Hs Hhd]. constructor; [by apply IH|].
      destruct l as [|z l]; cbn.
      * constructor. lia.
      * destruct (f x <? f z); constructor; [by inversion_clear Hhd | lia].
    + constructor; [done|]. by constructor.
Qed.

Lemma insertion_sort_desc_sorted (A : Type) (f : A -> Z) (l : list A) :
  Sorted (fun a b => f b <= f a) (insertion_sort_desc A f l).
Proof.
  unfold insertion_sort_desc. induction l as [|x l IH]; cbn.
  - constructor.
  - by apply insert_desc_sorted.
Qed.

(** ** Closed instances *)

Lemma empty_table_summaries_witness :
  category_summary insertion_sort_desc [] = []
  /\ length (dayofweek_summary []) = 7%nat
  /\ basic_info true [] <> Raised EmptyDatasetError.
Proof.
  pose proof (empty_table_summaries insertion_sort_desc
                insertion_sort_desc_perm true) as H.
  split; [apply H|]. split; apply H.
Defined.

Lemma compute_anomaly_score_copies_witness :
  exists out h',
    compute_anomaly_score 0%nat {[ 0%nat := sample_frame ]} = Some (out, h')
    /\ h' !! 0%nat = Some sample_frame
    /\ out <> 0%nat.
Proof.
  destruct (compute_anomaly_score_copies {[ 0%nat := sample_frame ]} 0%nat
              sample_frame) as (out & h' & Hrun & Hin & _ & Hne & _).
  - apply lookup_singleton_eq.
  - reflexivity.
  - by exists out, h'.
Defined.

Lemma anomaly_score_permutation_invariant_witness :
  exists out out',
    call_compute_anomaly_score sample_frame = Some out
    /\ call_compute_anomaly_score
         {| frame_rows := rev sample_table; anomaly_score := None |} = Some out'
    /\ forall tid, score_by_id out tid = score_by_id out' tid.
Proof.
  destruct (anomaly_score_permutation_invariant sample_frame
              {| frame_rows := rev sample_table; anomaly_score := None |})
    as (out & out' & H1 & H2 & _ & H3).
  - apply Permutation_rev.
  - apply (bool_decide_unpack _). vm_compute. exact I.
  - by exists out, out'.
Defined.

(** C6 fails on the code: a row without a category is in no group, so in a
    table with such a row the total_spend column adds up to less than the
    amount column. *)
Lemma category_totals_not_conserved :
  ~ (forall sort_values_desc : forall A : Type, (A -> Z) -> list A -> list A,
       (forall (A : Type) (f : A -> Z) (l : list A),
           sort_values_desc A f l ≡ₚ l) ->
       forall df : list Transaction,
         df <> [] ->
         series_sum (map total_spend (category_summary sort_values_desc df))
         = series_sum (map amount df)).
Proof.
  intros H.
  specialize (H insertion_sort_desc insertion_sort_desc_perm
                sample_missing_category).
  assert (sample_missing_category <> []) as Hne by discriminate.
  apply H in Hne. vm_compute in Hne. discriminate Hne.
Qed.

Example sample_missing_category_totals :
  series_sum (map total_spend
                  (category_summary insertion_sort_desc sample_missing_category))
  = 100
  /\ series_sum (map amount sample_missing_category) = 5100.
Proof. split; reflexivity. Qed.

Lemma category_totals_conserved_witness :
  series_sum (map total_spend (category_summary insertion_sort_desc sample_table))
  = series_sum (map amount sample_table).
Proof.
  apply (category_totals_conserved insertion_sort_desc insertion_sort_desc_perm).
  repeat constructor; by eexists.
Defined.

Lemma category_summary_drops_missing_witness :
  category_summary insertion_sort_desc sample_missing_category
  = category_summary insertion_sort_desc
      (filter (fun r => is_Some (category r)) sample_missing_category).
Proof.
  apply (category_summary_drops_missing insertion_sort_desc
           insertion_sort_desc_perm sample_missing_category).
Defined.

Lemma monthly_summary_calendar_order_witness :
  exists df,
    load_data iso_timestamp sample_raw = Returned df
    /\ map raw_month_name (raw_rows sample_raw)
       = [Some "March"; Some "January"; Some "March"]%string
    /\ map (fun row => month_label (sp_key row)) (monthly_summary (rows df))
       = ["January"; "March"]%string.
Proof.
  eexists. split; [reflexivity|]. split; [reflexivity|].
  etransitivity;
    [apply (monthly_summary_calendar_order iso_timestamp sample_raw _
              eq_refl eq_refl eq_refl)
    | reflexivity].
Defined.


Example load_data_without_date :
  load_data iso_timestamp sample_raw_without_date = Raised (KeyError "date").
Proof. reflexivity. Qed.

Example load_data_bad_datetime :
  iso_timestamp "half past ten" "half past ten" = None
  /\ exists df, load_data iso_timestamp sample_raw_bad_datetime = Returned df
                /\ map datetime (rows df) = [Unparsed "half past ten"].
Proof. split; [reflexivity|]. eexists. split; reflexivity. Qed.

(** A blank datetime cell of a column that parses is NaT. *)
Example load_data_blank_datetime :
  exists df, load_data iso_timestamp sample_raw_blank_datetime = Returned df
             /\ map datetime (rows df) = [Parsed 20240315100000; NaT].
Proof. eexists. split; reflexivity. Qed.

(** Two dates that are each read on their own, in one column: the second is
    not in the format of the first, and the load fails. *)
Example load_data_mixed_dates :
  is_Some (iso_cell "2024-03-15") /\ is_Some (iso_cell "2024-03-16 09:30:00")
  /\ load_data iso_timestamp sample_raw_mixed_dates = Raised ValueError.
Proof. split; [by eexists|]. split; [by eexists|]. reflexivity. Qed.

Example sample_scores :
  anomaly_scores sample_table = [(133 # 10)%Q; (567 # 10)%Q; (600 # 10)%Q].
Proof. reflexivity. Qed.

(** ** Rows with equal totals

    The contract of [sort_values] leaves the order of groups with equal
    totals open: both rearrangements below are descending, and they order
    two categories of equal total differently. *)

Lemma insertion_sort_desc_rev_perm (A : Type) (f : A -> Z) (l : list A) :
  insertion_sort_desc_rev A f l ≡ₚ l.
Proof.
  unfold insertion_sort_desc_rev. rewrite insertion_sort_desc_perm.
  symmetry. apply Permutation_rev.
Qed.

Lemma insertion_sort_desc_rev_sorted (A : Type) (f : A -> Z) (l : list A) :
  Sorted (fun a b => f b <= f a) (insertion_sort_desc_rev A f l).
Proof. apply insertion_sort_desc_sorted. Qed.

Example tied_totals_order :
  map sp_key (category_summary insertion_sort_desc sample_tied)
  = ["Shopping"; "Travel"]%string
  /\ map sp_key (category_summary insertion_sort_desc_rev sample_tied)
     = ["Travel"; "Shopping"]%string.
Proof. split; reflexivity. Qed.

(** * Further properties *)

(** ** The order of strings *)

Lemma ascii_compare_refl (a : ascii) : Ascii.compare a a = Eq.
Proof. apply N.compare_refl. Qed.

Lemma ascii_compare_trans (a b c : ascii) :
  Ascii.compare a b = Lt -> Ascii.compare b c = Lt -> Ascii.compare a c = Lt.
Proof. unfold Ascii.compare. rewrite !N.compare_lt_iff. lia. Qed.

Lemma string_compare_trans (a b c : string) :
  String.compare a b = Lt -> String.compare b c = Lt -> String.compare a c = Lt.
Proof.
  revert b c. induction a as [|x a IH]; intros [|y b] [|z c]; cbn; try done.
  destruct (Ascii.compare x y) eqn:Hxy; try done;
    destruct (Ascii.compare y z) eqn:Hyz; try done; intros H1 H2.
  - apply Ascii.compare_eq_iff in Hxy as ->. rewrite Hyz. by apply (IH b).
  - apply Ascii.compare_eq_iff in Hxy as ->. by rewrite Hyz.
  - apply Ascii.compare_eq_iff in Hyz as <-. by rewrite Hxy.
  - by rewrite (ascii_compare_trans x y z).
Qed.

(** ** Groups as a finite map *)

Section OrderedKeys.
Context {K R : Type} `{EqDecision K}.
Variable compare_key : K -> K -> comparison.
Variable eqb : K -> K -> bool.
Variable key_of : R -> option K.
Hypothesis compare_key_eq : forall a b, compare_key a b = Eq -> a = b.
Hypothesis compare_key_antisym :
  forall a b, compare_key a b = CompOpp (compare_key b a).
Hypothesis compare_key_trans :
  forall a b c, compare_key a b = Lt -> compare_key b c = Lt ->
                compare_key a c = Lt.
Hypothesis eqb_eq : forall a b, eqb a b = true <-> a = b.

Local Abbreviation precedes := (fun a b : K => compare_key a b = Lt).

Lemma compare_key_refl (a : K) : compare_key a a = Eq.
Proof.
  pose proof (compare_key_antisym a a) as H.
  destruct (compare_key a a); (done || discriminate H).
Qed.

Lemma find_group_None (k : K) {A} (gs : list (K * A)) :
  find_group eqb k gs = None <-> k ∉ map fst gs.
Proof.
  induction gs as [|[k' a] gs IH]; cbn.
  - split; [intros _; apply not_elem_of_nil | done].
  - rewrite not_elem_of_cons. destruct (eqb k k') eqn:Hk.
    + apply eqb_eq in Hk. split; [done | tauto].
    + rewrite IH. split; [|tauto]. intros Hn. split; [|done].
      intros Heq. apply eqb_eq in Heq. congruence.
Qed.

Lemma find_group_elem (k : K) {A} (a : A) (gs : list (K * A)) :
  NoDup (map fst gs) -> (k, a) ∈ gs -> find_group eqb k gs = Some a.
Proof.
  induction gs as [|[k' a'] gs IH]; cbn; intros Hnd Hin.
  - by apply elem_of_nil in Hin.
  - apply NoDup_cons in Hnd as [Hk' Hnd].
    apply elem_of_cons in Hin as [[= <- <-]|Hin].
    + by rewrite (proj2 (eqb_eq k k) eq_refl).
    + destruct (eqb k k') eqn:Hk; [|by apply IH].
      apply eqb_eq in Hk as <-. destruct Hk'.
      apply list_elem_of_fmap. by exists (k, a).
Qed.

Lemma precedes_hd (k0 k : K) (r : R) (gs : list (K * list R)) :
  compare_key k0 k = Lt ->
  HdRel precedes k0 (map fst gs) ->
  HdRel precedes k0 (map fst (add_to_group compare_key k r gs)).
Proof.
  intros Hk Hhd. destruct gs as [|[k' rs] gs]; cbn.
  - by constructor.
  - destruct (compare_key k k'); cbn; [done | by constructor |].
    inversion_clear Hhd. by constructor.
Qed.

Lemma add_to_group_precedes (k : K) (r : R) (gs : list (K * list R)) :
  Sorted precedes (map fst gs) ->
  Sorted precedes (map fst (add_to_group compare_key k r gs)).
Proof.
  induction gs as [|[k' rs] gs IH]; cbn; intros Hs.
  - by repeat constructor.
  - apply Sorted_inv in Hs as [Hs Hhd].
    destruct (compare_key k k') eqn:Hc; cbn.
    + by constructor.
    + constructor; [by constructor | by constructor].
    + constructor; [by apply IH|]. apply precedes_hd; [|done].
      rewrite compare_key_antisym, Hc. done.
Qed.

Lemma foldl_add_row_precedes (df : list R) (gs : list (K * list R)) :
  Sorted precedes (map fst gs) ->
  Sorted precedes (map fst (foldl (add_row compare_key key_of) gs df)).
Proof.
  revert gs. induction df as [|r df IH]; intros gs Hs; cbn [foldl]; [done|].
  apply IH. unfold add_row. destruct (key_of r); [|done].
  by apply add_to_group_precedes.
Qed.

Lemma precedes_strongly (l : list K) :
  Sorted precedes l -> StronglySorted precedes l.
Proof.
  apply Sorted.Sorted_StronglySorted. intros a b c. apply compare_key_trans.
Qed.

Lemma precedes_NoDup (l : list K) : Sorted precedes l -> NoDup l.
Proof.
  intros Hs. apply precedes_strongly in Hs.
  induction Hs as [|x l Hl IH Hx]; constructor; [|done].
  intros Hin. rewrite Forall_forall in Hx. specialize (Hx x Hin). cbn in Hx.
  by rewrite compare_key_refl in Hx.
Qed.

Lemma groupby_keys_NoDup (df : list R) :
  NoDup (map fst (groupby compare_key key_of df)).
Proof. apply precedes_NoDup, foldl_add_row_precedes. constructor. Qed.

Lemma find_add_to_group (x k : K) (r : R) (gs : list (K * list R)) :
  Sorted precedes (map fst gs) ->
  find_group eqb x (add_to_group compare_key k r gs)
  = if eqb x k
    then Some (match find_group eqb k gs with
               | Some rs => rs ++ [r]
               | None => [r]
               end)
    else find_group eqb x gs.
Proof.
  induction gs as [|[k' rs] gs IH]; cbn; intros Hs; [done|].
  apply Sorted_inv in Hs as [Hs Hhd].
  destruct (compare_key k k') eqn:Hc; cbn.
  - apply compare_key_eq in Hc as <-.
    rewrite (proj2 (eqb_eq k k) eq_refl). by destruct (eqb x k).
  - destruct (eqb x k) eqn:Hx; [|done]. f_equal.
    change (if eqb k k' then Some rs else find_group eqb k gs)
      with (find_group eqb k ((k', rs) :: gs)).
    assert (find_group eqb k ((k', rs) :: gs) = None) as ->; [|done].
    apply find_group_None.
    apply (NoDup_cons_1_1 k (map fst ((k', rs) :: gs))).
    apply precedes_NoDup. constructor; [by constructor | by constructor].
  - assert (eqb k k' = false) as Hkk'.
    { destruct (eqb k k') eqn:He; [|done]. apply eqb_eq in He as <-.
      by rewrite compare_key_refl in Hc. }
    rewrite Hkk'. destruct (eqb x k') eqn:Hx'.
    + apply eqb_eq in Hx' as ->.
      destruct (eqb k' k) eqn:He; [|done].
      apply eqb_eq in He as ->. by rewrite compare_key_refl in Hc.
    + by apply IH.
Qed.

Lemma find_foldl_add_row (x : K) (df : list R) (gs : list (K * list R)) :
  Sorted precedes (map fst gs) ->
  find_group eqb x (foldl (add_row compare_key key_of) gs df)
  = match find_group eqb x gs, filter (fun r => key_of r = Some x) df with
    | Some rs, l => Some (rs ++ l)
    | None, [] => None
    | None, l => Some l
    end.
Proof.
  revert gs. induction df as [|r df IH]; intros gs Hs; cbn [foldl].
  - rewrite filter_nil. destruct (find_group eqb x gs); [by rewrite app_nil_r | done].
  - rewrite IH by (unfold add_row; destruct (key_of r);
                   [by apply add_to_group_precedes | done]).
    rewrite filter_cons. unfold add_row.
    destruct (key_of r) as [k|] eqn:Hk.
    + rewrite find_add_to_group by done.
      destruct (eqb x k) eqn:Hx.
      * apply eqb_eq in Hx as ->. rewrite decide_True by done.
        destruct (find_group eqb k gs); [by rewrite <- app_assoc | done].
      * rewrite decide_False; [done|]. intros [= ->].
        by rewrite (proj2 (eqb_eq x x) eq_refl) in Hx.
    + by rewrite decide_False.
Qed.

(** The group of a key holds the rows with that key, in the order of the
    table; a key without rows has no group. *)
Lemma find_groupby (x : K) (df : list R) :
  find_group eqb x (groupby compare_key key_of df)
  = match filter (fun r => key_of r = Some x) df with
    | [] => None
    | l => Some l
    end.
Proof. unfold groupby. rewrite find_foldl_add_row by constructor. done. Qed.

Lemma groupby_group (k : K) (rs : list R) (df : list R) :
  (k, rs) ∈ groupby compare_key key_of df ->
  rs = filter (fun r => key_of r = Some k) df /\ rs <> [].
Proof.
  intros Hin. apply (find_group_elem k rs) in Hin; [|apply groupby_keys_NoDup].
  rewrite find_groupby in Hin.
  destruct (filter (fun r => key_of r = Some k) df); [done|].
  by injection Hin as <-.
Qed.

Lemma groupby_key_iff (k : K) (df : list R) :
  k ∈ map fst (groupby compare_key key_of df) <-> Some k ∈ map key_of df.
Proof.
  split; [apply groupby_key_observed|]. intros Hk.
  destruct (decide (k ∈ map fst (groupby compare_key key_of df)))
    as [|Hn]; [done|].
  apply find_group_None in Hn. rewrite find_groupby in Hn.
  apply list_elem_of_fmap in Hk as (r & Hr & Hin).
  assert (r ∈ filter (fun r => key_of r = Some k) df) as Hf
    by (by apply list_elem_of_filter).
  destruct (filter (fun r => key_of r = Some k) df);
    [by apply elem_of_nil in Hf | done].
Qed.
End OrderedKeys.

(** ** Groups keyed by a string column *)

Section StringKeys.
Variable key_of : Transaction -> option string.

Lemma string_groupby_find (x : string) (df : list Transaction) :
  find_group String.eqb x (groupby String.compare key_of df)
  = match filter (fun r => key_of r = Some x) df with
    | [] => None
    | l => Some l
    end.
Proof.
  apply find_groupby.
  - apply String.compare_eq_iff.
  - apply String.compare_antisym.
  - apply string_compare_trans.
  - apply String.eqb_eq.
Qed.

Lemma string_groupby_NoDup (df : list Transaction) :
  NoDup (map fst (groupby String.compare key_of df)).
Proof.
  apply groupby_keys_NoDup.
  - apply String.compare_antisym.
  - apply string_compare_trans.
Qed.

Lemma string_groupby_group (k : string) (rs df : list Transaction) :
  (k, rs) ∈ groupby String.compare key_of df ->
  rs = filter (fun r => key_of r = Some k) df /\ rs <> [].
Proof.
  apply (groupby_group String.compare String.eqb).
  - apply String.compare_eq_iff.
  - apply String.compare_antisym.
  - apply string_compare_trans.
  - apply String.eqb_eq.
Qed.

Lemma string_groupby_key_iff (k : string) (df : list Transaction) :
  k ∈ map fst (groupby String.compare key_of df) <-> Some k ∈ map key_of df.
Proof.
  apply (groupby_key_iff String.compare String.eqb).
  - apply String.compare_eq_iff.
  - apply String.compare_antisym.
  - apply string_compare_trans.
  - apply String.eqb_eq.
Qed.

Lemma string_groupby_length (df : list Transaction) :
  series_count (groupby String.compare key_of df) = nunique (map key_of df).
Proof.
  unfold series_count, nunique. f_equal.
  rewrite <- (length_map fst). apply Permutation_length, NoDup_Permutation.
  - apply string_groupby_NoDup.
  - apply NoDup_remove_dups.
  - intros k. rewrite string_groupby_key_iff, elem_of_remove_dups.
    rewrite list_elem_of_omap. split.
    + intros Hk. by exists (Some k).
    + intros (o & Ho & Heq). cbn in Heq. by subst o.
Qed.
End StringKeys.

Lemma series_mean_nonempty (col : list Z) :
  col <> [] ->
  series_mean col = Some (inject_Z (series_sum col) / inject_Z (series_count col))%Q.
Proof. by destruct col. Qed.

Section SortedSummaries.
Variable sort_values_desc : forall A : Type, (A -> Z) -> list A -> list A.
Hypothesis sort_values_desc_perm :
  forall (A : Type) (f : A -> Z) (l : list A), sort_values_desc A f l ≡ₚ l.
Hypothesis sort_values_desc_sorted :
  forall (A : Type) (f : A -> Z) (l : list A),
    Sorted (fun a b => f b <= f a) (sort_values_desc A f l).

(** X1: category_summary has one row for each category that occurs in the
    table, known or not, and the row of a category holds the sum, the count,
    the mean and the flagged sum of exactly the rows with that category. *)
Theorem category_summary_groups (df : list Transaction) :
  NoDup (map sp_key (category_summary sort_values_desc df))
  /\ (forall k, k ∈ map sp_key (category_summary sort_values_desc df)
                <-> Some k ∈ map category df)
  /\ series_count (category_summary sort_values_desc df)
     = nunique (map category df)
  /\ Forall (fun row =>
       let rs := filter (fun r => category r = Some (sp_key row)) df in
       rs <> []
       /\ total_spend row = series_sum (map amount rs)
       /\ transaction_count row = series_count rs
       /\ avg_spend row
          = Some (inject_Z (series_sum (map amount rs))
                  / inject_Z (series_count rs))%Q
       /\ flagged row = series_sum (map is_fraud rs))
     (category_summary sort_values_desc df).
Proof.
  pose proof (sort_values_desc_perm _ total_spend
                (map spend_row (groupby String.compare category df))) as Hperm.
  fold (category_summary sort_values_desc df) in Hperm.
  assert (map sp_key (category_summary sort_values_desc df)
          ≡ₚ map fst (groupby String.compare category df)) as Hkeys.
  { rewrite Hperm. by rewrite map_map. }
  split; [|split; [|split]].
  - rewrite Hkeys. apply string_groupby_NoDup.
  - intros k. rewrite Hkeys. apply string_groupby_key_iff.
  - unfold series_count at 1. rewrite (Permutation_length Hperm), length_map.
    apply string_groupby_length.
  - rewrite Hperm. apply Forall_forall. intros row Hrow.
    apply list_elem_of_fmap in Hrow as ([k rs] & -> & Hg). cbn.
    apply string_groupby_group in Hg as [<- Hne].
    split; [done|]. split; [done|].
    split; [unfold series_count; by rewrite length_map|]. split; [|done].
    rewrite series_mean_nonempty by (by destruct rs).
    unfold series_count. by rewrite length_map.
Qed.

(** X2: for n >= 0, top_merchants returns min(n, number of distinct
    merchants) rows in descending order of total spend, and no merchant left
    out has a larger total than a merchant returned. *)
Theorem top_merchants_top (df : list Transaction) (n : Z) :
  0 <= n ->
  series_count (top_merchants sort_values_desc df n)
  = Z.min n (nunique (map merchant df))
  /\ Sorted (fun a b => tr_total_spend b <= tr_total_spend a)
            (top_merchants sort_values_desc df n)
  /\ exists rest,
       top_merchants sort_values_desc df n ++ rest
       ≡ₚ map total_row (groupby String.compare merchant df)
       /\ forall a b, a ∈ top_merchants sort_values_desc df n -> b ∈ rest ->
                      tr_total_spend b <= tr_total_spend a.
Proof.
  intros Hn. unfold top_merchants, head.
  rewrite (proj2 (Z.leb_le 0 n) Hn).
  set (all := map total_row (groupby String.compare merchant df)).
  pose proof (sort_values_desc_perm _ tr_total_spend all) as Hperm.
  pose proof (sort_values_desc_sorted _ tr_total_spend all) as Hsorted.
  apply Sorted.Sorted_StronglySorted in Hsorted; [|intros a b c; lia].
  rewrite <- (take_drop (Z.to_nat n)
                (sort_values_desc TotalRow tr_total_spend all)) in Hsorted.
  apply StronglySorted_app in Hsorted as (Hcross & Htake & _).
  split; [|split].
  - unfold series_count. rewrite length_take, (Permutation_length Hperm).
    unfold all. rewrite length_map.
    pose proof (string_groupby_length merchant df) as Hlen.
    unfold series_count in Hlen. lia.
  - apply StronglySorted_Sorted. exact Htake.
  - exists (drop (Z.to_nat n) (sort_values_desc TotalRow tr_total_spend all)).
    split; [by rewrite take_drop|]. intros a b Ha Hb. by apply Hcross.
Qed.
End SortedSummaries.

(** X3: dayofweek_summary always has the seven days Monday to Sunday, in
    that order; the row of a day holds the sum, count and mean of the rows
    of that day, or NaN cells when there is none; rows with any other day
    label are in no row. *)
Theorem dayofweek_summary_rows (df : list Transaction) :
  map dw_day_of_week (dayofweek_summary df) = day_order
  /\ dayofweek_summary df
     = map (fun d =>
              match filter (fun r => day_of_week r = Some d) df with
              | [] => {| dw_day_of_week := d; dw_total_spend := None;
                         dw_count := None; dw_avg_spend := None |}
              | rs => {| dw_day_of_week := d;
                         dw_total_spend := Some (series_sum (map amount rs));
                         dw_count := Some (series_count rs);
                         dw_avg_spend :=
                           Some (inject_Z (series_sum (map amount rs))
                                 / inject_Z (series_count rs))%Q |}
              end) day_order.
Proof.
  assert (forall d, reindex_day (groupby String.compare day_of_week df) d
            = match filter (fun r => day_of_week r = Some d) df with
              | [] => {| dw_day_of_week := d; dw_total_spend := None;
                         dw_count := None; dw_avg_spend := None |}
              | rs => {| dw_day_of_week := d;
                         dw_total_spend := Some (series_sum (map amount rs));
                         dw_count := Some (series_count rs);
                         dw_avg_spend :=
                           Some (inject_Z (series_sum (map amount rs))
                                 / inject_Z (series_count rs))%Q |}
              end) as Hrow.
  { intros d. unfold reindex_day. rewrite string_groupby_find.
    destruct (filter (fun r => day_of_week r = Some d) df) as [|r rs]; [done|].
    rewrite series_mean_nonempty by done.
    unfold series_count. by rewrite length_map. }
  unfold dayofweek_summary. split.
  - rewrite map_map. rewrite <- (map_id day_order) at 2. apply map_ext.
    intros d. rewrite Hrow. by destruct (filter _ df).
  - apply map_ext. intros d. apply Hrow.
Qed.

(** X4: hourly_summary has one row for each hour that occurs, in ascending
    order of the hour, and its columns add up to the whole table. *)
Theorem hourly_summary_complete (df : list Transaction) :
  StronglySorted Z.lt (map hr_hour (hourly_summary df))
  /\ (forall h, h ∈ map hr_hour (hourly_summary df) <-> h ∈ map hour df)
  /\ series_sum (map hr_count (hourly_summary df)) = series_count df
  /\ series_sum (map hr_total_spend (hourly_summary df))
     = series_sum (map amount df)
  /\ series_sum (map hr_flagged (hourly_summary df))
     = series_sum (map is_fraud df).
Proof.
  unfold hourly_summary. rewrite !map_map. cbn [hr_hour hr_count hr_total_spend hr_flagged].
  assert (grouped_rows (groupby Z.compare (fun r => Some (hour r)) df) ≡ₚ df)
    as Hrows.
  { rewrite groupby_rows. rewrite filter_all; [done|].
    apply Forall_forall. intros r _. by eexists. }
  split; [|split; [|split; [|split]]].
  - apply (groupby_sorted (fun h : Z => h)).
  - intros h.
    rewrite (groupby_keys (fun h : Z => h) (fun r => Some (hour r))) by done.
    rewrite <- (map_map hour Some). split.
    + intros Hh. apply list_elem_of_fmap in Hh as (x & [= ->] & Hx). done.
    + intros Hh. by apply list_elem_of_fmap_2.
  - rewrite grouped_count. unfold series_count. f_equal.
    by apply Permutation_length.
  - rewrite (grouped_sum amount). by apply series_sum_perm, Permutation_map.
  - rewrite (grouped_sum is_fraud). by apply series_sum_perm, Permutation_map.
Qed.

(** ** Flags *)

Lemma flag_sum_count (df : list Transaction) :
  Forall (fun r => is_fraud r = 0 \/ is_fraud r = 1) df ->
  series_sum (map is_fraud df) = series_count (flagged_rows df).
Proof.
  unfold series_count, flagged_rows.
  induction 1 as [|r df Hr Hdf IH]; [done|].
  cbn [map]. rewrite series_sum_cons, IH, filter_cons.
  destruct Hr as [Hr|Hr]; rewrite Hr.
  - rewrite decide_False by done. lia.
  - rewrite decide_True by done. cbn [length]. lia.
Qed.

Lemma flag_sum_between (df : list Transaction) :
  Forall (fun r => is_fraud r = 0 \/ is_fraud r = 1) df ->
  0 <= series_sum (map is_fraud df) <= series_count df.
Proof.
  intros H01. rewrite flag_sum_count by done.
  unfold series_count, flagged_rows.
  pose proof (length_filter (fun r => is_fraud r = 1) df). lia.
Qed.

Lemma flagged_rows_grouped {K} (gs : list (K * list Transaction)) :
  series_sum (map (fun g => series_sum (map amount (flagged_rows (snd g)))) gs)
  = series_sum (map amount (flagged_rows (grouped_rows gs))).
Proof.
  unfold grouped_rows, flagged_rows. induction gs as [|g gs IH]; [done|].
  cbn [map concat].
  by rewrite series_sum_cons, filter_app, map_app, series_sum_app, IH.
Qed.

Lemma hour_groupby_group (h : Z) (rs df : list Transaction) :
  (h, rs) ∈ groupby Z.compare (fun r => Some (hour r)) df ->
  rs = filter (fun r => hour r = h) df /\ rs <> [].
Proof.
  intros Hin.
  apply (groupby_group Z.compare Z.eqb) in Hin as [-> Hne].
  - split; [|done]. apply list_filter_iff. intros r. split; congruence.
  - apply Z.compare_eq.
  - intros a b. apply Z.compare_antisym.
  - intros a b c. rewrite !Z.compare_lt_iff. lia.
  - apply Z.eqb_eq.
Qed.

Section FraudListing.
Variable sort_values_desc : forall A : Type, (A -> Z) -> list A -> list A.
Hypothesis sort_values_desc_perm :
  forall (A : Type) (f : A -> Z) (l : list A), sort_values_desc A f l ≡ₚ l.
Hypothesis sort_values_desc_sorted :
  forall (A : Type) (f : A -> Z) (l : list A),
    Sorted (fun a b => f b <= f a) (sort_values_desc A f l).

(** X5: fraud_summary lists exactly the rows whose is_fraud is 1, each as
    often as it occurs, in descending order of amount; when every flag is 0
    or 1 their number is the sum of the is_fraud column. *)
Theorem fraud_summary_flagged (df : list Transaction) :
  fraud_summary sort_values_desc df ≡ₚ flagged_rows df
  /\ (forall r, r ∈ fraud_summary sort_values_desc df
                <-> r ∈ df /\ is_fraud r = 1)
  /\ Sorted (fun a b => amount b <= amount a) (fraud_summary sort_values_desc df)
  /\ (Forall (fun r => is_fraud r = 0 \/ is_fraud r = 1) df ->
      series_count (fraud_summary sort_values_desc df)
      = series_sum (map is_fraud df)).
Proof.
  assert (fraud_summary sort_values_desc df ≡ₚ flagged_rows df) as Hperm
    by apply sort_values_desc_perm.
  split; [done|]. split; [|split].
  - intros r. rewrite Hperm. unfold flagged_rows.
    rewrite list_elem_of_filter. tauto.
  - apply sort_values_desc_sorted.
  - intros H01. rewrite flag_sum_count by done.
    unfold series_count. by rewrite (Permutation_length Hperm).
Qed.

(** X6: each row of fraud_by_category holds, for the rows of its category,
    their number, the sum of their flags, and the sum of the amounts of those
    whose flag is 1; when every row has a category the fraud amounts add up
    to the amounts listed by fraud_summary. *)
Theorem fraud_by_category_rows (df : list Transaction) :
  Forall (fun row =>
       let rs := filter (fun r => category r = Some (fc_category row)) df in
       rs <> []
       /\ fc_total row = series_count rs
       /\ fc_fraud_count row = series_sum (map is_fraud rs)
       /\ fc_fraud_amount row = series_sum (map amount (flagged_rows rs)))
     (fraud_by_category sort_values_desc df)
  /\ (Forall (fun r => is_Some (category r)) df ->
      series_sum (map fc_fraud_amount (fraud_by_category sort_values_desc df))
      = series_sum (map amount (fraud_summary sort_values_desc df))).
Proof.
  unfold fraud_by_category.
  set (rows_of := map _ (groupby String.compare category df)).
  pose proof (sort_values_desc_perm _ fc_fraud_count rows_of) as Hperm.
  split.
  - rewrite Hperm. apply Forall_forall. intros row Hrow.
    apply list_elem_of_fmap in Hrow as ([k rs] & -> & Hg). cbn.
    apply string_groupby_group in Hg as [<- Hne].
    repeat split; try done. unfold series_count. by rewrite length_map.
  - intros Hall.
    rewrite (series_sum_perm _ _ (Permutation_map _ Hperm)).
    unfold rows_of. rewrite map_map. cbn [fc_fraud_amount].
    rewrite flagged_rows_grouped.
    apply series_sum_perm, Permutation_map.
    unfold fraud_summary. rewrite sort_values_desc_perm.
    unfold flagged_rows. apply filter_Permutation.
    rewrite groupby_rows. by rewrite filter_all.
Qed.
End FraudListing.

(** X7: fraud_by_hour has the hours of hourly_summary with its flagged and
    count columns; each row counts the rows of its hour and sums their
    flags, so with flags 0 or 1 the fraud count is between 0 and the
    total. *)
Theorem fraud_by_hour_rows (df : list Transaction) :
  map fh_hour (fraud_by_hour df) = map hr_hour (hourly_summary df)
  /\ map fh_fraud (fraud_by_hour df) = map hr_flagged (hourly_summary df)
  /\ map fh_total (fraud_by_hour df) = map hr_count (hourly_summary df)
  /\ Forall (fun row =>
       fh_total row = series_count (filter (fun r => hour r = fh_hour row) df)
       /\ fh_fraud row
          = series_sum (map is_fraud
                            (filter (fun r => hour r = fh_hour row) df))
       /\ 1 <= fh_total row)
     (fraud_by_hour df)
  /\ (Forall (fun r => is_fraud r = 0 \/ is_fraud r = 1) df ->
      Forall (fun row => 0 <= fh_fraud row <= fh_total row) (fraud_by_hour df)).
Proof.
  assert (forall rs : list Transaction,
             series_count (map is_fraud rs) = series_count rs) as Hcount.
  { intros rs. unfold series_count. by rewrite length_map. }
  assert (Forall (fun row =>
       fh_total row = series_count (filter (fun r => hour r = fh_hour row) df)
       /\ fh_fraud row
          = series_sum (map is_fraud
                            (filter (fun r => hour r = fh_hour row) df))
       /\ 1 <= fh_total row)
     (fraud_by_hour df)) as Hrows.
  { apply Forall_forall. intros row Hrow.
    apply list_elem_of_fmap in Hrow as ([h rs] & -> & Hg). cbn.
    apply hour_groupby_group in Hg as [<- Hne]. rewrite Hcount.
    repeat split; try done. unfold series_count. destruct rs; [done|].
    cbn [length]. lia. }
  unfold hourly_summary. split; [|split; [|split; [|split]]].
  - unfold fraud_by_hour. by rewrite !map_map.
  - unfold fraud_by_hour. by rewrite !map_map.
  - unfold fraud_by_hour. rewrite !map_map. apply map_ext. intros g. cbn.
    unfold series_count. by rewrite !length_map.
  - done.
  - intros H01. eapply Forall_impl; [exact Hrows|].
    intros row (-> & -> & _). apply flag_sum_between.
    apply Forall_forall. intros r Hr. apply list_elem_of_filter in Hr as [_ Hr].
    rewrite Forall_forall in H01. by apply H01.
Qed.

Lemma month_groupby_group (m : Month) (rs df : list Transaction) :
  (m, rs) ∈ groupby compare_month month_name df ->
  rs = filter (fun r => month_name r = Some m) df /\ rs <> [].
Proof.
  apply (groupby_group compare_month (fun a b => bool_decide (a = b))).
  - intros a b H. apply month_code_inj. by apply Z.compare_eq.
  - intros a b. apply Z.compare_antisym.
  - intros a b c. unfold compare_month. rewrite !Z.compare_lt_iff. lia.
  - intros a b. apply bool_decide_eq_true.
Qed.

(** X8: fraud_by_month has one row for each month that occurs in the table,
    January first and December last; the total of a row is the number of the
    rows of its month and its fraud count the sum of their flags; the totals
    add up to the number of rows that have a month, so a row without one is
    counted nowhere; with flags 0 or 1 no fraud count exceeds its total. *)
Theorem fraud_by_month_rows (df : list Transaction) :
  map fm_month_name (fraud_by_month df)
  = filter (fun m => Some m ∈ map month_name df)
           [January; February; March; April; May; June;
            July; August; September; October; November; December]
  /\ Forall (fun row =>
       fm_total row
       = series_count (filter (fun r => month_name r = Some (fm_month_name row)) df)
       /\ fm_fraud row
          = series_sum
              (map is_fraud
                   (filter (fun r => month_name r = Some (fm_month_name row)) df))
       /\ 1 <= fm_total row)
     (fraud_by_month df)
  /\ series_sum (map fm_total (fraud_by_month df))
     = series_count (filter (fun r => is_Some (month_name r)) df)
  /\ series_sum (map fm_fraud (fraud_by_month df))
     = series_sum (map is_fraud (filter (fun r => is_Some (month_name r)) df))
  /\ (Forall (fun r => is_fraud r = 0 \/ is_fraud r = 1) df ->
      Forall (fun row => 0 <= fm_fraud row <= fm_total row) (fraud_by_month df)).
Proof.
  assert (Forall (fun row =>
       fm_total row
       = series_count (filter (fun r => month_name r = Some (fm_month_name row)) df)
       /\ fm_fraud row
          = series_sum
              (map is_fraud
                   (filter (fun r => month_name r = Some (fm_month_name row)) df))
       /\ 1 <= fm_total row)
     (fraud_by_month df)) as Hrows.
  { apply Forall_forall. intros row Hrow.
    apply list_elem_of_fmap in Hrow as ([m rs] & -> & Hg).
    cbn [fm_total fm_fraud fm_month_name fst snd].
    apply month_groupby_group in Hg as [<- Hne].
    unfold series_count. rewrite length_map.
    repeat split; try done. destruct rs; [done|]. cbn [length]. lia. }
  split; [|split; [done|split; [|split]]].
  - unfold fraud_by_month. rewrite map_map. cbn [fm_month_name].
    apply month_keys_calendar.
  - unfold fraud_by_month. rewrite map_map. cbn [fm_total].
    rewrite grouped_count. unfold series_count. f_equal.
    apply Permutation_length, groupby_rows.
  - unfold fraud_by_month. rewrite map_map. cbn [fm_fraud].
    rewrite (grouped_sum is_fraud).
    apply series_sum_perm, Permutation_map, groupby_rows.
  - intros H01. eapply Forall_impl; [exact Hrows|].
    intros row (-> & -> & _). apply flag_sum_between.
    apply Forall_forall. intros r Hr. apply list_elem_of_filter in Hr as [_ Hr].
    rewrite Forall_forall in H01. by apply H01.
Qed.

(** ** Rounding *)

Lemma pow10_pos (d : nat) : 0 < 10 ^ Z.of_nat d.
Proof. apply Z.pow_pos_nonneg; lia. Qed.

Lemma inject_Z_pos (z : Z) : 0 < z -> (0 < inject_Z z)%Q.
Proof. intros H. change 0%Q with (inject_Z 0). by rewrite <- Zlt_Qlt. Qed.

Lemma round_to_between (d : nat) (x : Q) (a b : Z) :
  (inject_Z a <= x)%Q -> (x <= inject_Z b)%Q ->
  (inject_Z a <= round_to d x)%Q /\ (round_to d x <= inject_Z b)%Q.
Proof.
  intros Ha Hb. unfold round_to.
  pose proof (inject_Z_pos _ (pow10_pos d)) as Hp.
  set (p := 10 ^ Z.of_nat d) in *.
  destruct (rint_between (x * inject_Z p) (a * p) (b * p)) as [H1 H2].
  - rewrite inject_Z_mult. apply Qmult_le_compat_r; [done|]. by apply Qlt_le_weak.
  - rewrite inject_Z_mult. apply Qmult_le_compat_r; [done|]. by apply Qlt_le_weak.
  - split.
    + apply Qle_shift_div_l; [done|]. rewrite <- inject_Z_mult.
      by rewrite <- Zle_Qle.
    + apply Qle_shift_div_r; [done|]. rewrite <- inject_Z_mult.
      by rewrite <- Zle_Qle.
Qed.

Lemma rint_floor (x : Q) : Qfloor x <= rint x <= Qfloor x + 1.
Proof.
  unfold rint. destruct (x - inject_Z (Qfloor x) ?= 1 # 2)%Q; [|lia|lia].
  destruct (Z.even _); lia.
Qed.

Lemma rint_mono (x y : Q) : (x <= y)%Q -> rint x <= rint y.
Proof.
  intros Hxy. pose proof (Qfloor_resp_le _ _ Hxy) as Hf.
  destruct (Z.eq_dec (Qfloor x) (Qfloor y)) as [Heq|Hne].
  - unfold rint. rewrite <- Heq.
    destruct (x - inject_Z (Qfloor x) ?= 1 # 2)%Q eqn:Hx;
      destruct (y - inject_Z (Qfloor x) ?= 1 # 2)%Q eqn:Hy;
      try (destruct (Z.even (Qfloor x)); lia); try lia; exfalso.
    + apply Qeq_alt in Hx. apply Qlt_alt in Hy. lra.
    + apply Qgt_alt in Hx. apply Qeq_alt in Hy. lra.
    + apply Qgt_alt in Hx. apply Qlt_alt in Hy. lra.
  - pose proof (rint_floor x). pose proof (rint_floor y). lia.
Qed.

Lemma round_to_mono (d : nat) (x y : Q) :
  (x <= y)%Q -> (round_to d x <= round_to d y)%Q.
Proof.
  intros Hxy. unfold round_to.
  pose proof (inject_Z_pos _ (pow10_pos d)) as Hp.
  set (p := 10 ^ Z.of_nat d) in *.
  apply Qle_shift_div_l; [done|].
  unfold Qdiv. rewrite <- Qmult_assoc, (Qmult_comm (/ inject_Z p)),
    Qmult_inv_r, Qmult_1_r by lra.
  rewrite <- Zle_Qle. apply rint_mono.
  apply Qmult_le_compat_r; [done|]. by apply Qlt_le_weak.
Qed.

Lemma clip_mono (lo hi x y : Q) : (x <= y)%Q -> (clip lo hi x <= clip lo hi y)%Q.
Proof.
  intros Hxy. unfold clip.
  apply Q.min_le_compat_r, Q.max_le_compat_r, Hxy.
Qed.

(** ** basic_info *)

Lemma series_mean_between (col : list Z) (a b : Z) :
  col <> [] ->
  a * series_count col <= series_sum col <= b * series_count col ->
  exists m, series_mean col = Some m
            /\ (inject_Z a <= m)%Q /\ (m <= inject_Z b)%Q.
Proof.
  intros Hne [Ha Hb]. rewrite series_mean_nonempty by done.
  eexists. split; [done|].
  assert (0 < series_count col) as Hn
    by (unfold series_count; destruct col; [done | cbn [length]; lia]).
  pose proof (inject_Z_pos _ Hn) as Hq. split.
  - apply Qle_shift_div_l; [done|]. rewrite <- inject_Z_mult.
    by rewrite <- Zle_Qle.
  - apply Qle_shift_div_r; [done|]. rewrite <- inject_Z_mult.
    by rewrite <- Zle_Qle.
Qed.

Lemma series_sum_between (col : list Z) (lo hi : Z) :
  Forall (fun x => lo <= x <= hi) col ->
  lo * series_count col <= series_sum col <= hi * series_count col.
Proof.
  unfold series_count. induction 1 as [|x l Hx _ IH].
  - cbn. lia.
  - rewrite series_sum_cons. cbn [length]. lia.
Qed.

Lemma rint_close (y : Q) :
  (inject_Z (rint y) - y <= 1 # 2)%Q /\ (y - inject_Z (rint y) <= 1 # 2)%Q.
Proof.
  pose proof (Qfloor_le y) as Hf. pose proof (Qlt_floor y) as Hc.
  rewrite inject_Z_plus in Hc. change (inject_Z 1) with 1%Q in Hc.
  unfold rint.
  destruct (y - inject_Z (Qfloor y) ?= 1 # 2)%Q eqn:Hcmp.
  - apply Qeq_alt in Hcmp. destruct (Z.even _).
    + split; lra.
    + rewrite inject_Z_plus. change (inject_Z 1) with 1%Q. split; lra.
  - apply Qlt_alt in Hcmp. split; lra.
  - apply Qgt_alt in Hcmp. rewrite inject_Z_plus.
    change (inject_Z 1) with 1%Q. split; lra.
Qed.

Lemma round_to_2_close (x : Q) :
  (round_to 2 x - x <= 1 # 100)%Q /\ (x - round_to 2 x <= 1 # 100)%Q.
Proof.
  destruct (rint_close (x * inject_Z 100)) as [H1 H2].
  change (round_to 2 x) with (inject_Z (rint (x * inject_Z 100)) / inject_Z 100)%Q.
  set (k := inject_Z (rint (x * inject_Z 100))) in *.
  change (inject_Z 100) with 100%Q in *.
  assert (k / 100 == k * (1 # 100))%Q as -> by (field; lra).
  split; lra.
Qed.

(** X9: on a table with at least one row basic_info returns, whatever NaN
    does on rounding: the count is the number of rows and the total the sum
    of the amounts; the average is within a hundredth of the sum over the
    count and lies between any two bounds of the amounts; the median is a
    number; with flags 0 or 1 the flagged count is at most the count and
    the fraud rate lies between 0 and 100. *)
Theorem basic_info_nonempty (nan_has_round : bool) (df : list Transaction) :
  df <> [] ->
  exists info,
    basic_info nan_has_round df = Returned info
    /\ total_transactions info = series_count df
    /\ bi_total_spend info = series_sum (map amount df)
    /\ (exists m, avg_transaction info = Some m
          /\ (m - inject_Z (series_sum (map amount df))
                  / inject_Z (series_count df) <= 1 # 100)%Q
          /\ (inject_Z (series_sum (map amount df))
                / inject_Z (series_count df) - m <= 1 # 100)%Q
          /\ forall lo hi, Forall (fun r => lo <= amount r <= hi) df ->
               (inject_Z lo <= m)%Q /\ (m <= inject_Z hi)%Q)
    /\ is_Some (median_transaction info)
    /\ flagged_count info = series_sum (map is_fraud df)
    /\ (Forall (fun r => is_fraud r = 0 \/ is_fraud r = 1) df ->
        0 <= flagged_count info <= total_transactions info
        /\ exists p, fraud_rate_pct info = Some p
                     /\ (0 <= p)%Q /\ (p <= 100)%Q).
Proof.
  intros Hne. unfold basic_info.
  assert (map amount df <> []) as Hcol by (by destruct df).
  rewrite (series_mean_nonempty _ Hcol). cbn [mean_round bind].
  eexists. split; [done|]. cbn.
  split; [done|]. split; [done|]. split.
  { eexists. split; [done|].
    assert (series_count (map amount df) = series_count df) as Hn
      by (unfold series_count; by rewrite length_map).
    rewrite Hn.
    destruct (round_to_2_close (inject_Z (series_sum (map amount df))
                                / inject_Z (series_count df))) as [H1 H2].
    split; [exact H1|]. split; [exact H2|]. intros lo hi Hb.
    destruct (series_mean_between (map amount df) lo hi Hcol)
      as (m & Hm & Hlo & Hhi).
    - apply series_sum_between. by apply Forall_fmap.
    - rewrite (series_mean_nonempty _ Hcol), Hn in Hm. injection Hm as <-.
      by apply round_to_between. }
  split.
  { unfold series_median.
    assert (length (sort_ascending (map amount df)) <> 0%nat) as Hlen.
    { unfold sort_ascending. rewrite (Permutation_length (merge_sort_Permutation _ _)).
      by destruct df. }
    destruct (length (sort_ascending (map amount df))); [done|].
    destruct (Nat.odd _); by eexists. }
  split; [done|]. intros H01.
  pose proof (flag_sum_between df H01) as Hflag. split; [done|].
  destruct (series_mean_between (map is_fraud df) 0 1) as (m & -> & Hm0 & Hm1).
  - by destruct df.
  - unfold series_count in *. rewrite length_map. lia.
  - cbn [option_map]. eexists. split; [done|].
    apply (round_to_between 2 _ 0 100).
    + change (inject_Z 0) with 0%Q in *. lra.
    + change (inject_Z 1) with 1%Q in *. change (inject_Z 100) with 100%Q. lra.
Qed.

(** ** The score as a function of the amount *)

Lemma count_below_step (col : list Z) (a b : Z) :
  a < b -> count_below col a + count_equal col a <= count_below col b.
Proof.
  intros Hab. unfold count_below, count_equal.
  induction col as [|y col IH]; [done|].
  rewrite !filter_cons. repeat case_decide; cbn [length]; lia.
Qed.

Lemma rank_points_mono (col : list Z) (a b : Z) :
  col <> [] -> a <= b ->
  (average_rank col a / inject_Z (series_count col) * 40
   <= average_rank col b / inject_Z (series_count col) * 40)%Q.
Proof.
  intros Hne Hab. unfold average_rank.
  assert (0 < series_count col) as Hn
    by (unfold series_count; destruct col; [done | cbn [length]; lia]).
  pose proof (inject_Z_pos _ Hn) as Hq.
  assert (2 * count_below col a + count_equal col a + 1
          <= 2 * count_below col b + count_equal col b + 1) as Hrank.
  { destruct (Z.eq_dec a b) as [->|Hne']; [lia|].
    pose proof (count_below_step col a b ltac:(lia)).
    pose proof (count_below_equal col a). pose proof (count_below_equal col b).
    unfold count_equal in *. lia. }
  apply Qmult_le_compat_r; [|done].
  apply Qmult_le_compat_r; [|apply Qlt_le_weak, Qinv_lt_0_compat, Hq].
  apply Qmult_le_compat_r; [|done]. by rewrite <- Zle_Qle.
Qed.

Lemma exceeds_mono (a b : Z) (q : option Q) :
  a <= b -> exceeds a q = true -> exceeds b q = true.
Proof.
  intros Hab. destruct q as [q|]; cbn; [|done].
  rewrite !negb_true_iff, <- !not_true_iff_false, !Qle_bool_iff.
  intros Ha Hb. apply Ha. apply Qle_trans with (inject_Z b); [|done].
  by rewrite <- Zle_Qle.
Qed.

Lemma row_sum_mono (col : list Z) (r1 r2 : Transaction) :
  col <> [] ->
  odd_hour_points (hour r1) = odd_hour_points (hour r2) ->
  amount r1 <= amount r2 ->
  (row_sum col r1 <= row_sum col r2)%Q.
Proof.
  intros Hne Hodd Hamt. unfold row_sum. rewrite Hodd.
  pose proof (rank_points_mono col _ _ Hne Hamt) as Hrank.
  assert (inject_Z ((if exceeds (amount r1) (quantile (95 # 100) col)
                     then 1 else 0) * 20)
          <= inject_Z ((if exceeds (amount r2) (quantile (95 # 100) col)
                        then 1 else 0) * 20))%Q as Hhigh.
  { rewrite <- Zle_Qle.
    destruct (exceeds (amount r1) _) eqn:H1;
      [rewrite (exceeds_mono _ _ _ Hamt H1); lia|].
    destruct (exceeds (amount r2) _); lia. }
  lra.
Qed.

Lemma anomaly_scores_lookup (df : list Transaction) (i : nat) (r : Transaction)
      (s : Q) :
  df !! i = Some r ->
  anomaly_scores df !! i = Some s ->
  s = round_to 1 (clip 0 100 (row_sum (map amount df) r)).
Proof.
  intros Hr. rewrite anomaly_scores_rows.
  change (map ?f df) with (f <$> df). rewrite list_lookup_fmap, Hr.
  by intros [= <-].
Qed.

(** X10: within one table, of two transactions that are both in the hours 1
    to 4 or both outside them, the one with the larger amount has the larger
    or the same score, and equal amounts have equal scores. *)
Theorem anomaly_score_monotone (df : list Transaction) (i j : nat)
        (r1 r2 : Transaction) (s1 s2 : Q) :
  df !! i = Some r1 -> df !! j = Some r2 ->
  anomaly_scores df !! i = Some s1 -> anomaly_scores df !! j = Some s2 ->
  in_range 1 5 (hour r1) = in_range 1 5 (hour r2) ->
  amount r1 <= amount r2 ->
  (s1 <= s2)%Q /\ (amount r1 = amount r2 -> s1 = s2).
Proof.
  intros Hr1 Hr2 Hs1 Hs2 Hodd Hamt.
  rewrite (anomaly_scores_lookup df i r1 s1 Hr1 Hs1),
    (anomaly_scores_lookup df j r2 s2 Hr2 Hs2).
  assert (odd_hour_points (hour r1) = odd_hour_points (hour r2)) as Hpts
    by (unfold odd_hour_points; by rewrite Hodd).
  split.
  - apply round_to_mono, clip_mono, row_sum_mono; [|done|done].
    destruct df; [done|discriminate].
  - intros Heq. unfold row_sum. by rewrite Heq, Hpts.
Qed.

Lemma row_sum_parts (df : list Transaction) (r : Transaction) :
  r ∈ df ->
  (inject_Z (odd_hour_points (hour r)) < row_sum (map amount df) r)%Q
  /\ (row_sum (map amount df) r
      <= 60 + inject_Z (odd_hour_points (hour r)))%Q.
Proof.
  intros Hr. unfold row_sum, average_rank, series_count.
  set (col := map amount df).
  assert (amount r ∈ col) as Hin by (by apply list_elem_of_fmap_2).
  destruct (count_below_equal col (amount r)) as [Hb Hbe].
  pose proof (count_equal_pos col (amount r) Hin) as He.
  destruct (rank_points_between
              (2 * count_below col (amount r) + count_equal col (amount r) + 1)
              (Z.of_nat (length col))) as [Hp0 Hp40]; [lia | lia |].
  assert (0 <= inject_Z ((if exceeds (amount r) (quantile (95 # 100) col)
                          then 1 else 0) * 20) <= 20)%Q as [Hv0 Hv20].
  { destruct (exceeds _ _); by compute. }
  split; lra.
Qed.

(** X11: a transaction outside the hours 1 to 4 never scores above 60, and
    a transaction in those hours never scores below 30. *)
Theorem anomaly_score_hour_bands (df : list Transaction) (i : nat)
        (r : Transaction) (s : Q) :
  df !! i = Some r ->
  anomaly_scores df !! i = Some s ->
  (in_range 1 5 (hour r) = false -> (s <= 60)%Q)
  /\ (in_range 1 5 (hour r) = true -> (30 <= s)%Q).
Proof.
  intros Hr Hs. rewrite (anomaly_scores_lookup df i r s Hr Hs).
  assert (r ∈ df) as Hin by (by eapply list_elem_of_lookup_2).
  destruct (row_sum_parts df r Hin) as [Hlo Hhi].
  destruct (row_sum_between df r Hin) as [H0 H90].
  unfold odd_hour_points in Hlo, Hhi. split; intros Hh; rewrite Hh in *.
  - apply (round_to_1_between _ 0 60); rewrite clip_id by lra.
    + change (inject_Z 0) with 0%Q. lra.
    + change (inject_Z 60) with 60%Q. change (inject_Z 0) with 0%Q in Hhi. lra.
  - apply (round_to_1_between _ 30 100); rewrite clip_id by lra.
    + change (inject_Z 30) with 30%Q in *. lra.
    + change (inject_Z 100) with 100%Q. lra.
Qed.

Lemma rint_comp (x y : Q) : (x == y)%Q -> rint x = rint y.
Proof.
  intros Hxy. unfold rint. rewrite (Qfloor_comp _ _ Hxy).
  assert ((x - inject_Z (Qfloor y) ?= 1 # 2)%Q
          = (y - inject_Z (Qfloor y) ?= 1 # 2)%Q) as ->; [|done].
  apply Qcompare_comp; [by rewrite Hxy | done].
Qed.

Lemma rint_Z (z : Z) : rint (inject_Z z) = z.
Proof.
  unfold rint. rewrite Qfloor_Z.
  assert ((inject_Z z - inject_Z z ?= 1 # 2)%Q = Lt) as ->; [|done].
  apply Qlt_alt.
  assert (inject_Z z - inject_Z z == 0)%Q as -> by ring. reflexivity.
Qed.

Lemma round_to_1_Z (x : Q) (z : Z) : (x == inject_Z z)%Q -> (round_to 1 x == inject_Z z)%Q.
Proof.
  intros Hx. rewrite round_to_1.
  rewrite (rint_comp _ (inject_Z (z * 10))).
  - rewrite rint_Z, inject_Z_mult. field.
  - rewrite Hx, inject_Z_mult. reflexivity.
Qed.

(** X12: in a table with a single transaction the score is 40, or 70 when
    the hour is one of 1 to 4, whatever the amount. *)
Theorem anomaly_score_single (r : Transaction) :
  exists s, anomaly_scores [r] = [s]
            /\ (s == inject_Z (40 + odd_hour_points (hour r)))%Q.
Proof.
  rewrite anomaly_scores_rows. cbn [map]. eexists. split; [done|].
  assert (row_sum [amount r] r == inject_Z (40 + odd_hour_points (hour r)))%Q
    as Hsum.
  { unfold row_sum, average_rank, count_below, count_equal, series_count.
    rewrite !filter_cons, !filter_nil.
    rewrite decide_False by lia. rewrite decide_True by done.
    assert (quantile (95 # 100) [amount r]
            = Some (inject_Z (amount r)
                    + (0 * (95 # 100) - 0)
                      * (inject_Z (amount r) - inject_Z (amount r)))%Q) as Hq
      by reflexivity.
    assert (exceeds (amount r) (quantile (95 # 100) [amount r]) = false) as ->.
    { rewrite Hq. cbn [exceeds]. apply negb_false_iff, Qle_bool_iff. lra. }
    cbn [length].
    change (inject_Z (2 * Z.of_nat 0 + Z.of_nat 1 + 1)) with 2%Q.
    change (inject_Z (Z.of_nat 1)) with 1%Q.
    change (inject_Z (0 * 20)) with 0%Q.
    rewrite inject_Z_plus. change (inject_Z 40) with 40%Q. field. }
  apply round_to_1_Z. rewrite clip_id; [done| |].
  - rewrite Hsum. destruct (odd_hour_points_cases (hour r)) as [[_ ->]|[_ ->]];
      by compute.
  - rewrite Hsum. destruct (odd_hour_points_cases (hour r)) as [[_ ->]|[_ ->]];
      by compute.
Qed.

(** X13: scoring a table that has been scored gives the same table again. *)
Theorem compute_anomaly_score_idempotent (f : Frame) :
  call_compute_anomaly_score f ≫= call_compute_anomaly_score
  = call_compute_anomaly_score f.
Proof.
  rewrite (call_compute_anomaly_score_eq f). cbn [mbind option_bind].
  by rewrite call_compute_anomaly_score_eq.
Qed.

(** ** What the loader keeps *)

Section LoaderRows.
Variable parse_timestamp : string -> string -> option Timestamp.

Lemma assemble_rows (rs : list RawRow) (dts : list DatetimeCell)
      (ds : list (option Timestamp)) (mns : list (option Month)) :
  length dts = length rs -> length ds = length rs -> length mns = length rs ->
  Forall2 (fun t r => t = load_row r (datetime t) (date t) (month_name t))
          (assemble rs dts ds mns) rs
  /\ map datetime (assemble rs dts ds mns) = dts
  /\ map date (assemble rs dts ds mns) = ds.
Proof.
  revert dts ds mns.
  induction rs as [|r rs IH]; intros [|dt dts] [|d ds] [|mn mns];
    cbn; try discriminate; [by repeat split|].
  intros [= H1] [= H2] [= H3]. destruct (IH dts ds mns H1 H2 H3) as (Hf & Hd & He).
  split; [|split].
  - constructor; [done|]. exact Hf.
  - by rewrite Hd.
  - by rewrite He.
Qed.

Lemma Forall2_map_eq {A B C} (f : A -> C) (g : B -> C) (l : list A)
      (k : list B) :
  Forall2 (fun a b => f a = g b) l k -> map f l = map g k.
Proof. induction 1 as [|a b l k Hab _ IH]; [done|]. cbn. by rewrite Hab, IH. Qed.

(** X15: a load that succeeds keeps the columns of the file and every row of
    it, in order; all cells but those of date, datetime and month_name are
    carried over as they are; every date is its text read in the format of
    the first date of the column, NaT for a blank cell; the datetime column
    is read as a whole in the format of its first text, a blank cell giving
    NaT, or, when one of its texts is not read so, left as text as a whole,
    a blank cell staying NaN. *)
Theorem load_data_rows (raw : RawTable) (df : Loaded) :
  load_data parse_timestamp raw = Returned df ->
  columns df = raw_header raw
  /\ length (rows df) = length (raw_rows raw)
  /\ Forall2 (fun t r => t = load_row r (datetime t) (date t) (month_name t))
             (rows df) (raw_rows raw)
  /\ map amount (rows df) = map raw_amount (raw_rows raw)
  /\ map category (rows df) = map raw_category (raw_rows raw)
  /\ map date (rows df)
     = map (fun r => raw_date r
                     ≫= column_parser parse_timestamp
                          (map raw_date (raw_rows raw)))
           (raw_rows raw)
  /\ map month_name (rows df)
     = map (fun r => raw_month_name r ≫= categorical month_categories)
           (raw_rows raw)
  /\ ((Forall (fun c => forall s, c = Some s ->
                 is_Some (column_parser parse_timestamp
                            (map raw_datetime (raw_rows raw)) s))
              (map raw_datetime (raw_rows raw))
       /\ map datetime (rows df)
          = map (fun r => parsed_cell
                            (raw_datetime r
                             ≫= column_parser parse_timestamp
                                  (map raw_datetime (raw_rows raw))))
                (raw_rows raw))
      \/ ((exists s, Some s ∈ map raw_datetime (raw_rows raw)
                     /\ column_parser parse_timestamp
                          (map raw_datetime (raw_rows raw)) s = None)
          /\ map datetime (rows df)
             = map (fun r => text_cell (raw_datetime r)) (raw_rows raw))).
Proof.
  intros Hload. pose proof (load_data_month_name _ _ _ Hload) as Hmn.
  revert Hload. unfold load_data.
  destruct (read_csv_parse_dates parse_timestamp raw) as [dts|] eqn:Hdts;
    [|discriminate]. cbv beta iota delta [bind].
  unfold getitem.
  destruct (has_column "date" (raw_header raw)); [|discriminate]. cbv beta iota delta [bind].
  destruct (to_datetime parse_timestamp (map raw_date (raw_rows raw)))
    as [ds|] eqn:Hds; [|discriminate]. cbv beta iota delta [bind].
  destruct (has_column "month_name" (raw_header raw)); [|discriminate].
  cbv beta iota delta [bind]. intros [= <-]. cbv beta iota delta [columns rows] in *.
  pose proof (read_csv_parse_dates_length _ _ _ Hdts) as Hl1.
  pose proof (to_datetime_length _ _ _ Hds) as Hl2. rewrite length_map in Hl2.
  apply parse_cells_Returned in Hds as [Hds _].
  destruct (assemble_rows (raw_rows raw) dts ds
              (map (fun n => n ≫= categorical month_categories)
                   (map raw_month_name (raw_rows raw))))
    as (Hrows' & Hdt & Hd); [done | done | by rewrite !length_map |].
  split; [done|]. split; [by apply Forall2_length in Hrows'|].
  split; [done|]. split; [|split; [|split; [|split; [done|]]]].
  - apply Forall2_map_eq. eapply Forall2_impl; [exact Hrows'|].
    intros t r Ht. by rewrite Ht.
  - apply Forall2_map_eq. eapply Forall2_impl; [exact Hrows'|].
    intros t r Ht. by rewrite Ht.
  - etransitivity; [exact Hd|]. rewrite Hds. by rewrite map_map.
  - match goal with
    | |- context [map datetime ?x] =>
        replace (map datetime x) with dts by (symmetry; exact Hdt)
    end.
    revert Hdts. unfold read_csv_parse_dates.
    destruct (has_column "datetime" (raw_header raw)); [|discriminate].
    cbv zeta.
    destruct (to_datetime parse_timestamp (map raw_datetime (raw_rows raw)))
      as [ts|e] eqn:Hts.
    + intros [= <-]. left. apply parse_cells_Returned in Hts as [-> Hall].
      split; [exact Hall|]. by rewrite !map_map.
    + intros [= <-]. right. split; [|by rewrite map_map].
      apply parse_cells_raises. by exists e.
Qed.

(** X16: the counts of monthly_summary of a loaded table add up to the
    number of rows of the file whose month_name is one of the twelve names;
    the other rows are left out without an error. *)
Theorem monthly_summary_recognised (raw : RawTable) (df : Loaded) :
  load_data parse_timestamp raw = Returned df ->
  series_sum (map transaction_count (monthly_summary (rows df)))
  = series_count
      (filter (fun r => is_Some (raw_month_name r
                                 ≫= categorical month_categories))
              (raw_rows raw)).
Proof.
  intros Hload. pose proof (load_data_month_name _ _ _ Hload) as Hmn.
  unfold monthly_summary. rewrite map_map. cbn [transaction_count spend_row].
  rewrite grouped_count. unfold series_count. f_equal.
  rewrite (Permutation_length (groupby_rows _ _ _)).
  assert (forall {A} (g : A -> option Month) (l : list A),
             length (filter (fun x => is_Some (g x)) l)
             = length (filter is_Some (map g l))) as Hfilter.
  { intros A g l. induction l as [|x l IH]; [done|].
    cbn [map]. rewrite !filter_cons.
    destruct (decide (is_Some (g x))); cbn [length]; by rewrite IH. }
  rewrite (Hfilter _ month_name (rows df)).
  rewrite (Hfilter _ (fun r => raw_month_name r ≫= categorical month_categories)
                   (raw_rows raw)).
  by rewrite Hmn.
Qed.
End LoaderRows.

(** ** The generator *)

(** X17: the rule of the generator flags no amount of 4000 or less, flags
    every amount above 5000 in the hours 1 to 4 whatever the draws, and in
    the band above 4000 up to 5000 flags only in the hours 2 and 3, on its
    draw; status is Flagged exactly when is_fraud is 1; and every
    transaction it flags without a draw has the odd-hour points of the
    scorer. *)
Theorem gen_is_fraud_rule (amt hr : Z) (u1 u2 : Q) :
  (gen_is_fraud amt hr u1 u2 = true -> 4000 < amt)
  /\ (5000 < amt -> 1 <= hr < 5 -> gen_is_fraud amt hr u1 u2 = true)
  /\ (4000 < amt <= 5000 ->
      gen_is_fraud amt hr u1 u2 = true <-> 2 <= hr < 4 /\ (u2 < 3 # 10)%Q)
  /\ (forall f, gen_status f = "Flagged"%string <-> gen_flag f = 1)
  /\ (5000 < amt -> in_range 1 5 hr = true -> odd_hour_points hr = 30).
Proof.
  unfold gen_is_fraud, in_range.
  assert (negb (Qle_bool (3 # 10) u2) = true <-> (u2 < 3 # 10)%Q) as Hu2.
  { rewrite negb_true_iff, <- not_true_iff_false, Qle_bool_iff.
    split; [apply Qnot_le_lt | apply Qlt_not_le]. }
  split; [|split; [|split; [|split]]].
  - rewrite !orb_true_iff, !andb_true_iff, !Z.ltb_lt. lia.
  - intros Ha Hh. rewrite !orb_true_iff, !andb_true_iff, !Z.ltb_lt,
      !Z.leb_le. lia.
  - intros Ha. rewrite !orb_true_iff, !andb_true_iff, !Z.ltb_lt, !Z.leb_le, Hu2.
    split.
    + intros [[H|H]|H]; [lia | lia | tauto].
    + intros [Hh Hu]. right. repeat split; (done || lia).
  - intros [|]; cbn; split; (done || discriminate).
  - intros _ Hh. unfold odd_hour_points, in_range. by rewrite Hh.
Qed.

(** X18: the amount of a generated transaction is at least 50, and is the
    integer part of the draw when the draw is above 50. *)
Theorem gen_amount_floor (x : Q) :
  50 <= gen_amount x
  /\ ((50 < x)%Q -> gen_amount x = Qfloor x)
  /\ ((x <= 50)%Q -> gen_amount x = 50).
Proof.
  unfold gen_amount, int_of_float.
  destruct (Qle_bool x 50) eqn:Hx.
  - apply Qle_bool_iff in Hx. split; [done|]. split; [|done].
    intros Hlt. lra.
  - apply not_true_iff_false in Hx. rewrite Qle_bool_iff in Hx.
    apply Qnot_le_lt in Hx.
    assert (Qle_bool 0 x = true) as -> by (apply Qle_bool_iff; lra).
    split; [|split; [done|]].
    + rewrite <- (Qfloor_Z 50). apply Qfloor_resp_le. by apply Qlt_le_weak.
    + intros Hle. lra.
Qed.

(** ** Closed instances of the further properties *)

Lemma category_summary_groups_witness :
  NoDup (map sp_key (category_summary insertion_sort_desc sample_missing_category))
  /\ series_count (category_summary insertion_sort_desc sample_missing_category)
     = nunique (map category sample_missing_category).
Proof.
  pose proof (category_summary_groups insertion_sort_desc
                insertion_sort_desc_perm sample_missing_category) as H.
  split; apply H.
Defined.

Lemma top_merchants_top_witness :
  series_count (top_merchants insertion_sort_desc sample_table top_n_default)
  = Z.min top_n_default (nunique (map merchant sample_table)).
Proof.
  apply (top_merchants_top insertion_sort_desc insertion_sort_desc_perm
           insertion_sort_desc_sorted sample_table top_n_default).
  unfold top_n_default. lia.
Defined.

Lemma fraud_summary_flagged_witness :
  fraud_summary insertion_sort_desc sample_table ≡ₚ flagged_rows sample_table.
Proof.
  apply (fraud_summary_flagged insertion_sort_desc insertion_sort_desc_perm
           insertion_sort_desc_sorted sample_table).
Defined.

Lemma fraud_by_category_rows_witness :
  series_sum (map fc_fraud_amount (fraud_by_category insertion_sort_desc sample_table))
  = series_sum (map amount (fraud_summary insertion_sort_desc sample_table)).
Proof.
  apply (fraud_by_category_rows insertion_sort_desc insertion_sort_desc_perm
           sample_table).
  repeat constructor; by eexists.
Defined.

Lemma basic_info_nonempty_witness :
  exists info, basic_info false sample_table = Returned info
               /\ total_transactions info = 3.
Proof.
  destruct (basic_info_nonempty false sample_table) as (info & Hinfo & Hn & _).
  - discriminate.
  - exists info. split; [done|]. by rewrite Hn.
Defined.

Lemma anomaly_score_monotone_witness : (133 # 10 <= 600 # 10)%Q.
Proof.
  refine (proj1 (anomaly_score_monotone sample_table 0 2 _ _ _ _
                   eq_refl eq_refl eq_refl eq_refl eq_refl _)).
  cbn. lia.
Defined.

Lemma anomaly_score_hour_bands_witness : (30 <= 567 # 10)%Q.
Proof.
  refine (proj2 (anomaly_score_hour_bands sample_table 1 _ _ eq_refl eq_refl) _).
  reflexivity.
Defined.

Lemma load_data_rows_witness :
  exists df, load_data iso_timestamp sample_raw = Returned df
             /\ map amount (rows df) = [100; 200; 300].
Proof.
  eexists. split; [reflexivity|].
  etransitivity;
    [apply (load_data_rows iso_timestamp sample_raw _ eq_refl) | reflexivity].
Defined.

Lemma monthly_summary_recognised_witness :
  exists df, load_data iso_timestamp sample_raw = Returned df
             /\ series_sum (map transaction_count (monthly_summary (rows df))) = 3.
Proof.
  eexists. split; [reflexivity|].
  etransitivity;
    [apply (monthly_summary_recognised iso_timestamp sample_raw _ eq_refl)
    | reflexivity].
Defined.
